(** * KanbanFlow MCP server: tool registry, argument schemas, setup wizard

    A shallow embedding of the server's entry module (the tool registry and
    the [--setup] wizard) and of [src/kanbanflow/types.ts] (the data model),
    with the properties of the specification stated over it.

    Conventions of the embedding.
    - A JavaScript value is a [JsValue]; an object used as a record or a
      dictionary is a [gmap string JsValue]; a property that was never set is
      absent from the map, a property set to [undefined] is present and holds
      [JUndefined].
    - JavaScript numbers that occur here (positions, indices, counts,
      seconds, clock readings) are JSON integers and are carried as [Z].
    - A string is a sequence of characters; [String.length] and
      [substring] count characters.
    - An [async] function is a program ([Prog]) that issues calls, receives
      their answers, and either returns or throws. *)

From Stdlib Require Import ZArith Lia.
From stdpp Require Import base option list strings gmap fin_maps pretty.

Set Warnings "-register-all".
Local Open Scope string_scope.
Local Open Scope Z_scope.

(** ** JavaScript values *)

Inductive JsValue : Type :=
| JUndefined
| JNull
| JBool (b : bool)
| JNum (n : Z)
| JStr (s : string)
| JArr (items : list JsValue)
| JObj (fields : gmap string JsValue).

Abbreviation JsObject := (gmap string JsValue).

(** The line feed written [\n] in the source. *)
Definition nl : string := String (Ascii.ascii_of_nat 10) EmptyString.

(** The double quote, for the template literals that print one. *)
Definition dquote : string := String (Ascii.ascii_of_nat 34) EmptyString.

(** [o.k]: reading a property that is not there gives [undefined]. *)
Definition prop (o : JsObject) (k : string) : JsValue :=
  default JUndefined (o !! k).

(** [v.k] and [v?.k] for a value [v] that may not be an object, [k] not
    being a property that strings or arrays have of their own. *)
Definition member (v : JsValue) (k : string) : JsValue :=
  match v with
  | JObj o => prop o k
  | _ => JUndefined
  end.

(** [o.k = v] *)
Definition set_prop (k : string) (v : JsValue) (o : JsObject) : JsObject :=
  <[k := v]> o.

(** [if (v !== undefined) o.k = v;] *)
Definition set_if_defined (k : string) (v : JsValue) (o : JsObject) : JsObject :=
  match v with
  | JUndefined => o
  | _ => set_prop k v o
  end.

(** [v !== undefined] *)
Definition is_defined (v : JsValue) : bool :=
  match v with
  | JUndefined => false
  | _ => true
  end.

(** An object literal [{ k1: v1, ..., kn: vn }]; later keys win. *)
Definition object_literal (fields : list (string * JsValue)) : JsObject :=
  foldl (fun o kv => set_prop kv.1 kv.2 o) ∅ fields.

(** Truthiness ([if (x)], [x ? a : b], [x || y], [x && y]) and the string
    conversion of template literals, for each type a value can have. *)
Class Truthy (A : Type) := truthy : A → bool.
Class Shown (A : Type) := shown : A → string.

Definition nonempty (s : string) : bool :=
  match s with
  | EmptyString => false
  | String _ _ => true
  end.

#[export] Instance string_truthy : Truthy string := nonempty.
#[export] Instance Z_truthy : Truthy Z := fun n => negb (n =? 0).
#[export] Instance bool_truthy : Truthy bool := fun b => b.
#[export] Instance option_truthy {A} `{Truthy A} : Truthy (option A) :=
  fun o => match o with Some a => truthy a | None => false end.
#[export] Instance js_truthy : Truthy JsValue :=
  fun v => match v with
           | JUndefined | JNull => false
           | JBool b => b
           | JNum n => truthy n
           | JStr s => truthy s
           | JArr _ | JObj _ => true
           end.

(** [String(v)]; an array prints its elements separated by commas, with
    [null] and [undefined] elements printed as nothing. *)
Fixpoint js_to_string (v : JsValue) : string :=
  match v with
  | JUndefined => "undefined"
  | JNull => "null"
  | JBool true => "true"
  | JBool false => "false"
  | JNum n => pretty n
  | JStr s => s
  | JArr items =>
      String.concat ","
        (map (fun x => match x with
                       | JUndefined | JNull => ""
                       | _ => js_to_string x
                       end) items)
  | JObj _ => "[object Object]"
  end.

#[export] Instance string_shown : Shown string := fun s => s.
#[export] Instance Z_shown : Shown Z := pretty.
#[export] Instance nat_shown : Shown nat := pretty.
#[export] Instance bool_shown : Shown bool :=
  fun b => if b then "true" else "false".
#[export] Instance option_shown {A} `{Shown A} : Shown (option A) :=
  fun o => match o with Some a => shown a | None => "undefined" end.
#[export] Instance js_shown : Shown JsValue := js_to_string.

(** [a || b] *)
Definition js_or (a b : JsValue) : JsValue := if truthy a then a else b.

(** [a || 'literal'] where [a] is an optional string. *)
Definition or_else (a : option string) (b : string) : string :=
  match a with
  | Some s => if truthy s then s else b
  | None => b
  end.

(** [s.substring(0, n)] *)
Definition substring_to (n : nat) (s : string) : string := String.substring 0 n s.

(** [s.toUpperCase()], on the letters a-z. *)
Definition upper_ascii (c : Ascii.ascii) : Ascii.ascii :=
  let n := Ascii.nat_of_ascii c in
  if ((97 <=? n) && (n <=? 122))%nat then Ascii.ascii_of_nat (n - 32) else c.

Fixpoint toUpperCase (s : string) : string :=
  match s with
  | EmptyString => EmptyString
  | String c r => String (upper_ascii c) (toUpperCase r)
  end.

(** ** Errors

    [KanbanError] of types.ts; a thrown value is an error object, of which
    the handlers read the [message]. *)
Record KanbanError := {
  message : string;
  status : option Z;
}.

Definition Error (msg : string) : KanbanError :=
  {| message := msg; status := None |}.

(** ** Programs

    An [async] function over an interface [E] of awaited calls: it returns,
    throws, or awaits a call whose answer is a value or a rejection. *)
Inductive Prog (E : Type → Type) (A : Type) : Type :=
| Ret (a : A)
| Throw (e : KanbanError)
| Await {X : Type} (c : E X) (k : KanbanError + X → Prog E A).

Arguments Ret {E A} a.
Arguments Throw {E A} e.
Arguments Await {E A X} c k.

Fixpoint bind {E A B} (p : Prog E A) (f : A → Prog E B) : Prog E B :=
  match p with
  | Ret a => f a
  | Throw e => Throw e
  | Await c k => Await c (fun r => bind (k r) f)
  end.

(** [await c]: a rejected call throws at the point of the [await]. *)
Definition await {E X} (c : E X) : Prog E X :=
  Await c (fun r => match r with inl e => Throw e | inr x => Ret x end).

(** [try { p } catch (error) { h error }] *)
Fixpoint try_catch {E A} (p : Prog E A) (h : KanbanError → Prog E A) : Prog E A :=
  match p with
  | Ret a => Ret a
  | Throw e => h e
  | Await c k => Await c (fun r => try_catch (k r) h)
  end.

#[export] Instance prog_ret {E} : MRet (Prog E) := fun A a => Ret a.
#[export] Instance prog_bind {E} : MBind (Prog E) := fun A B f p => bind p f.

(** What the other side answers: a handler of the calls over a state. *)
Definition Answers (E : Type → Type) (S : Type) : Type :=
  ∀ X, E X → S → (KanbanError + X) * S.

Record Outcome (E : Type → Type) (A S : Type) := {
  result : KanbanError + A;
  final : S;
  calls : list (sigT E);
}.
Arguments result {E A S} _.
Arguments final {E A S} _.
Arguments calls {E A S} _.

(** Running a program against the other side, recording the calls made. *)
Fixpoint run {E A S} (h : Answers E S) (p : Prog E A) (s : S) : Outcome E A S :=
  match p with
  | Ret a => {| result := inr a; final := s; calls := [] |}
  | Throw e => {| result := inl e; final := s; calls := [] |}
  | Await c k =>
      let '(r, s') := h _ c s in
      let o := run h (k r) s' in
      {| result := result o; final := final o; calls := existT _ c :: calls o |}
  end.

(** ** The data model (types.ts)

    Optional members ([?]) are [option]s. The elements of the [any[]]
    collections of a task are objects. *)

Record Column := { col_name : string; col_uniqueId : string }.

Record Swimlane := { sw_name : string; sw_uniqueId : string }.

Record ColorConfig := {
  cc_name : string;
  cc_value : string;
  cc_description : option string;
}.

Record Board := {
  b_id : string;
  b_name : string;
  b_columns : list Column;
  b_swimlanes : option (list Swimlane);
  b_colors : option (list ColorConfig);
}.

Record CreateTaskResponse := { ctr_taskId : string }.

Record AddSubtaskResponse := { asr_insertIndex : Z }.

Record AddLabelResponse := { alr_insertIndex : Z }.

Record AddCommentResponse := { acr_taskCommentId : string }.

Record AddedSubtask := { as_name : string; as_insertIndex : Z }.

Record AddSubtasksResponse := {
  asr_addedSubtasks : list AddedSubtask;
  asr_totalAdded : Z;
}.

Record CreateTaskWithSubtasksResponse := {
  cws_taskId : string;
  cws_taskName : string;
  cws_addedSubtasks : list AddedSubtask;
  cws_totalSubtasks : Z;
}.

Record TaskNumber := { tn_prefix : option string; tn_value : Z }.

Record KanbanTask := {
  t_id : string;
  t_name : string;
  t_columnId : string;
  t_swimlaneId : option string;
  t_position : option Z;
  t_description : option string;
  t_color : option string;
  t_number : option TaskNumber;
  t_responsibleUserId : option string;
  t_totalSecondsSpent : option Z;
  t_totalSecondsEstimate : option Z;
  t_pointsEstimate : option Z;
  t_groupingDate : option string;
  t_dates : option (list JsObject);
  t_subTasks : option (list JsObject);
  t_labels : option (list JsObject);
  t_collaborators : option (list JsObject);
  t_customFields : option (list JsObject);
  t_relations : option (list JsObject);
}.

(** The task with its [position] member replaced. *)
Definition with_position (p : option Z) (t : KanbanTask) : KanbanTask :=
  {| t_id := t_id t; t_name := t_name t; t_columnId := t_columnId t;
     t_swimlaneId := t_swimlaneId t; t_position := p;
     t_description := t_description t; t_color := t_color t;
     t_number := t_number t; t_responsibleUserId := t_responsibleUserId t;
     t_totalSecondsSpent := t_totalSecondsSpent t;
     t_totalSecondsEstimate := t_totalSecondsEstimate t;
     t_pointsEstimate := t_pointsEstimate t;
     t_groupingDate := t_groupingDate t; t_dates := t_dates t;
     t_subTasks := t_subTasks t; t_labels := t_labels t;
     t_collaborators := t_collaborators t;
     t_customFields := t_customFields t; t_relations := t_relations t |}.

Record KanbanAllTasksResponse := {
  at_columnId : string;
  at_columnName : string;
  at_tasksLimited : bool;
  at_tasks : list KanbanTask;
}.

(** ** The service the tools call (the methods of [KanbanService] used by
    the entry module, with the arguments it passes). *)
Inductive SvcCall : Type → Type :=
| getBoard : SvcCall Board
| createTask (req : JsObject) : SvcCall CreateTaskResponse
| getTasksByColumnId (columnId : JsValue) : SvcCall (list KanbanTask)
| getTaskDetails (taskId includePosition : JsValue) : SvcCall KanbanTask
| updateTask (taskId : JsValue) (updates : JsObject) : SvcCall unit
| getAllTasks : SvcCall (list KanbanAllTasksResponse)
| addSubtask (taskId : JsValue) (subtask : JsObject) : SvcCall AddSubtaskResponse
| updateSubtaskByPosition (taskId index : JsValue) (updates : JsObject) : SvcCall unit
| addLabel (taskId : JsValue) (label : JsObject) : SvcCall AddLabelResponse
| updateLabel (taskId labelName : JsValue) (updates : JsObject) : SvcCall unit
| setTaskDueDate (taskId : JsValue) (dateInfo : JsObject) : SvcCall unit
| updateCustomField (taskId customFieldId : JsValue) (req : JsObject) : SvcCall unit
| addComment (taskId : JsValue) (comment : JsObject) : SvcCall AddCommentResponse
| updateComment (taskId commentId : JsValue) (updates : JsObject) : SvcCall unit
| addMultipleSubtasks (taskId : JsValue) (req : JsObject) : SvcCall AddSubtasksResponse
| createTaskWithSubtasks (req : JsObject) : SvcCall CreateTaskWithSubtasksResponse.

(** ** Tool results *)

Record ContentItem := { type : string; text : string }.

Record ToolResult := { content : list ContentItem }.

(** [{ content: [{ type: "text", text: s }] }] *)
Definition text_result (s : string) : ToolResult :=
  {| content := [ {| type := "text"; text := s |} ] |}.

Abbreviation Tool := (JsObject → Prog SvcCall ToolResult).

(** A template literal: the pieces in order. *)
Definition cat (pieces : list string) : string := String.concat "" pieces.

(** [if (b) s += piece] contributes [piece] or nothing. *)
Definition when_ (b : bool) (piece : string) : string := if b then piece else "".

(** An element of [xs.join(sep)]. *)
Definition join_item (v : JsValue) : string :=
  match v with
  | JUndefined | JNull => ""
  | _ => shown v
  end.

(** [xs.forEach((x, index) => s += f(x, index))], as the text appended. *)
Definition forEach {A} (xs : list A) (f : A → nat → string) : string :=
  cat (imap (fun index x => f x index) xs).

(** [xs && xs.length > 0] *)
Definition some_nonempty {A} (xs : option (list A)) : option (list A) :=
  match xs with
  | Some (x :: r) => Some (x :: r)
  | _ => None
  end.

(** A method of [String.prototype] called on [expr], whose value is [v]:
    a value that is not a string throws a [TypeError]. *)
Definition string_method {E} (v : JsValue) (expr method : string) : Prog E string :=
  match v with
  | JStr s => Ret s
  | JUndefined | JNull =>
      Throw (Error (cat ["Cannot read properties of "; shown v;
                         " (reading '"; method; "')"]))
  | _ => Throw (Error (cat [expr; "."; method; " is not a function"]))
  end.

(** [`${s.substring(0, 100)}${s.length > 100 ? '...' : ''}`] *)
Definition first_100 (s : string) : string :=
  cat [substring_to 100 s; if (100 <? String.length s)%nat then "..." else ""].

(** [catch (error) { return { content: [{ type: "text",
    text: `<prefix>${error.message}` }] }; }] *)
Definition failed {E} (prefix : string) (error : KanbanError) : Prog E ToolResult :=
  Ret (text_result (cat [prefix; message error])).

(** The status glyphs, as the source file has them. *)
Definition glyph_finished : string := "âœ…".
Definition glyph_unfinished : string := "â¬œ".
Definition glyph_column : string := "ðŸ“‚".
Definition glyph_warning : string := "âš ï¸".
Definition glyph_updated : string := "â†".
Definition glyph_pinned : string := "ðŸ“Œ".
Definition glyph_label : string := "ðŸ·ï¸".

(** ** Argument schemas (zod)

    The schema types the entry module builds, and what parsing a value against one
    gives: the parsed value, or nothing when the value is refused.
    [describe] only attaches documentation and is left out. *)
Inductive ZodType : Type :=
| z_string
| z_number
| z_boolean
| z_enum (values : list string)
| z_union (options : list ZodType)
| z_optional (inner : ZodType)
| z_array (element : ZodType)
| z_object (shape : list (string * ZodType)).

Definition has_key (o : JsObject) (k : string) : bool :=
  match o !! k with
  | Some _ => true
  | None => false
  end.

(** The members of an object schema, each parsed by [parse] against the
    property of [data] it names; a member is set in the result when its
    parsed value is defined or [data] has the key. Keys outside the shape
    are dropped. *)
Fixpoint parse_members (parse : ZodType → JsValue → option JsValue)
    (data : JsObject) (shape : list (string * ZodType)) : option JsObject :=
  match shape with
  | [] => Some ∅
  | member :: shape' =>
      let '(k, tk) := member in
      match parse tk (prop data k), parse_members parse data shape' with
      | Some r, Some rest =>
          Some (if is_defined r || has_key data k then <[k := r]> rest else rest)
      | _, _ => None
      end
  end.

(** The first option of a union that accepts the value. *)
Fixpoint parse_first (parse : ZodType → JsValue → option JsValue)
    (v : JsValue) (options : list ZodType) : option JsValue :=
  match options with
  | [] => None
  | o :: options' =>
      match parse o v with
      | Some r => Some r
      | None => parse_first parse v options'
      end
  end.

Fixpoint zod_parse (t : ZodType) (v : JsValue) : option JsValue :=
  match t with
  | z_string => match v with JStr _ => Some v | _ => None end
  | z_number => match v with JNum _ => Some v | _ => None end
  | z_boolean => match v with JBool _ => Some v | _ => None end
  | z_enum values =>
      match v with
      | JStr s => if existsb (String.eqb s) values then Some v else None
      | _ => None
      end
  | z_union options => parse_first zod_parse v options
  | z_optional inner =>
      match v with
      | JUndefined => Some JUndefined
      | _ => zod_parse inner v
      end
  | z_array element =>
      match v with
      | JArr items => JArr <$> mapM (zod_parse element) items
      | _ => None
      end
  | z_object shape =>
      match v with
      | JObj data => JObj <$> parse_members zod_parse data shape
      | _ => None
      end
  end.

Definition colors : list string :=
  ["yellow"; "white"; "red"; "green"; "blue"; "purple"; "orange"; "cyan";
   "brown"; "magenta"].

Definition subtask_schema : ZodType :=
  z_object [("name", z_string);
            ("finished", z_optional z_boolean);
            ("userId", z_optional z_string);
            ("dueDateTimestamp", z_optional z_string);
            ("dueDateTimestampLocal", z_optional z_string)].

Definition get_board_schema : list (string * ZodType) := [].

Definition create_task_schema : list (string * ZodType) :=
  [("name", z_string); ("columnId", z_string); ("description", z_optional z_string)].

Definition get_tasks_schema : list (string * ZodType) :=
  [("columnId", z_string)].

Definition get_task_details_schema : list (string * ZodType) :=
  [("taskId", z_string); ("includePosition", z_optional z_boolean)].

Definition update_task_schema : list (string * ZodType) :=
  [("taskId", z_string);
   ("name", z_optional z_string);
   ("columnId", z_optional z_string);
   ("description", z_optional z_string);
   ("color", z_optional (z_enum colors));
   ("position", z_optional (z_union [z_string; z_number]));
   ("responsibleUserId", z_optional z_string);
   ("totalSecondsEstimate", z_optional z_number);
   ("pointsEstimate", z_optional z_number)].

Definition get_all_tasks_schema : list (string * ZodType) := [].

Definition add_subtask_schema : list (string * ZodType) :=
  [("taskId", z_string);
   ("name", z_string);
   ("finished", z_optional z_boolean);
   ("userId", z_optional z_string);
   ("dueDateTimestamp", z_optional z_string);
   ("dueDateTimestampLocal", z_optional z_string)].

Definition update_subtask_by_position_schema : list (string * ZodType) :=
  [("taskId", z_string);
   ("index", z_number);
   ("name", z_optional z_string);
   ("finished", z_optional z_boolean);
   ("userId", z_optional z_string);
   ("dueDateTimestamp", z_optional z_string);
   ("dueDateTimestampLocal", z_optional z_string)].

Definition add_label_schema : list (string * ZodType) :=
  [("taskId", z_string); ("name", z_string); ("pinned", z_optional z_boolean)].

Definition update_label_schema : list (string * ZodType) :=
  [("taskId", z_string); ("labelName", z_string);
   ("name", z_optional z_string); ("pinned", z_optional z_boolean)].

Definition set_task_due_date_schema : list (string * ZodType) :=
  [("taskId", z_string);
   ("dueTimestamp", z_string);
   ("targetColumnId", z_string);
   ("dueTimestampLocal", z_optional z_string);
   ("dateType", z_optional z_string);
   ("status", z_optional z_string)].

Definition update_custom_field_schema : list (string * ZodType) :=
  [("taskId", z_string); ("customFieldId", z_string);
   ("textValue", z_optional z_string); ("numberValue", z_optional z_number)].

Definition add_comment_schema : list (string * ZodType) :=
  [("taskId", z_string); ("text", z_string);
   ("authorUserId", z_optional z_string); ("createdTimestamp", z_optional z_string)].

Definition update_comment_schema : list (string * ZodType) :=
  [("taskId", z_string); ("commentId", z_string);
   ("text", z_optional z_string);
   ("authorUserId", z_optional z_string);
   ("createdTimestamp", z_optional z_string);
   ("updatedTimestamp", z_optional z_string)].

Definition add_subtasks_schema : list (string * ZodType) :=
  [("taskId", z_string); ("subtasks", z_array subtask_schema)].

Definition create_task_with_subtasks_schema : list (string * ZodType) :=
  [("name", z_string);
   ("columnId", z_string);
   ("description", z_optional z_string);
   ("color", z_optional (z_enum colors));
   ("position", z_optional (z_union [z_string; z_number]));
   ("subtasks", z_array subtask_schema)].

(** ** The registry

    A registration [server.tool(name, description, schema, handler)]: the
    name, the schema, and the handler, which is a [try] block under a
    [catch] that returns a text made of a fixed prefix and the message of
    the error. *)
Record Registration := {
  reg_name : string;
  reg_schema : list (string * ZodType);
  reg_try : Tool;
  reg_failure : string;
}.

(** [async (args) => { try { ... } catch (error) { return { content:
    [{ type: "text", text: `<failure>${error.message}` }] }; } }] *)
Definition reg_handler (r : Registration) : Tool := fun args =>
  try_catch (reg_try r args) (failed (reg_failure r)).

(** ** The registered tools (entry module)

    Each handler is its [try] block under its [catch]. [args] is the
    object of validated arguments that the handler destructures. *)

Record FormattedColumn := { fc_name : string; fc_id : string }.

Record FormattedBoard := { fb_name : string; fb_columns : list FormattedColumn }.

Definition formatBoard (board : Board) : FormattedBoard :=
  {| fb_name := b_name board;
     fb_columns := map (fun col => {| fc_name := col_name col;
                                      fc_id := col_uniqueId col |})
                       (b_columns board) |}.

(** *** get-board *)
Definition get_board_try (args : JsObject) : Prog SvcCall ToolResult :=
  board ← await getBoard;
  let formattedBoard := formatBoard board in
  mret (text_result
    (cat ["Board: "; fb_name formattedBoard; nl; nl; "Columns:"; nl;
          String.concat nl
            (map (fun col => cat ["- "; fc_name col; " (ID: "; fc_id col; ")"])
                 (fb_columns formattedBoard))])).

Definition get_board : Registration :=
  {| reg_name := "get-board";
     reg_schema := get_board_schema;
     reg_try := get_board_try;
     reg_failure := "Failed to get board: " |}.

(** *** create-task *)
Definition create_task_try (args : JsObject) : Prog SvcCall ToolResult :=
  let name := prop args "name" in
  let columnId := prop args "columnId" in
  let description := prop args "description" in
  task ← await (createTask (object_literal
            [("name", name); ("columnId", columnId); ("description", description)]));
  mret (text_result
    (cat ["Successfully created task!"; nl; "Task ID: "; ctr_taskId task])).

Definition create_task : Registration :=
  {| reg_name := "create-task";
     reg_schema := create_task_schema;
     reg_try := create_task_try;
     reg_failure := "Failed to create task: " |}.

(** *** get-tasks *)
Definition get_tasks_try (args : JsObject) : Prog SvcCall ToolResult :=
  let columnId := prop args "columnId" in
  tasks ← await (getTasksByColumnId columnId);
  let formattedTasks :=
    String.concat nl
      (map (fun task =>
              cat ["- "; t_name task;
                   (if truthy (t_description task)
                    then cat [" ("; shown (t_description task); ")"] else "");
                   " [ID: "; t_id task; "]"])
           tasks) in
  mret (text_result
    (if (0 <? length tasks)%nat
     then cat ["Tasks in column:"; nl; formattedTasks]
     else "No tasks found in this column")).

Definition get_tasks : Registration :=
  {| reg_name := "get-tasks";
     reg_schema := get_tasks_schema;
     reg_try := get_tasks_try;
     reg_failure := "Failed to get tasks: " |}.

(** *** get-task-details *)
Definition formattedDetails (task : KanbanTask) : string :=
  cat [
    "Task Details:"; nl;
    "- ID: "; t_id task; nl;
    "- Name: "; t_name task; nl;
    "- Column ID: "; t_columnId task; nl;
    when_ (truthy (t_description task))
      (cat ["- Description: "; shown (t_description task); nl]);
    when_ (truthy (t_color task))
      (cat ["- Color: "; shown (t_color task); nl]);
    when_ (truthy (t_position task))
      (cat ["- Position: "; shown (t_position task); nl]);
    match t_number task with
    | Some number =>
        cat ["- Number: "; or_else (tn_prefix number) ""; shown (tn_value number); nl]
    | None => ""
    end;
    when_ (truthy (t_responsibleUserId task))
      (cat ["- Responsible User: "; shown (t_responsibleUserId task); nl]);
    when_ (truthy (t_totalSecondsSpent task))
      (cat ["- Time Spent: "; shown (t_totalSecondsSpent task); " seconds"; nl]);
    when_ (truthy (t_totalSecondsEstimate task))
      (cat ["- Time Estimate: "; shown (t_totalSecondsEstimate task); " seconds"; nl]);
    when_ (truthy (t_pointsEstimate task))
      (cat ["- Points Estimate: "; shown (t_pointsEstimate task); nl]);
    when_ (truthy (t_groupingDate task))
      (cat ["- Grouping Date: "; shown (t_groupingDate task); nl]);
    match some_nonempty (t_subTasks task) with
    | Some subTasks =>
        cat ["- Subtasks ("; shown (length subTasks); "):"; nl;
             forEach subTasks (fun subtask index =>
               let status := if truthy (prop subtask "finished")
                             then glyph_finished else glyph_unfinished in
               cat ["  "; shown (index + 1)%nat; ". "; status; " ";
                    shown (js_or (prop subtask "name") (JStr "Unnamed subtask"));
                    when_ (truthy (prop subtask "userId"))
                      (cat [" (assigned: "; shown (prop subtask "userId"); ")"]);
                    when_ (truthy (prop subtask "dueDateTimestamp"))
                      (cat [" (due: "; shown (prop subtask "dueDateTimestamp"); ")"]);
                    nl])]
    | None => ""
    end;
    match some_nonempty (t_labels task) with
    | Some labels =>
        cat ["- Labels: ";
             String.concat ", " (map (fun label => join_item (prop label "name")) labels);
             nl]
    | None => ""
    end;
    match some_nonempty (t_dates task) with
    | Some dates =>
        cat ["- Dates ("; shown (length dates); "):"; nl;
             forEach dates (fun date index =>
               cat ["  "; shown (index + 1)%nat; ". ";
                    shown (js_or (prop date "dateType") (JStr "dueDate")); ": ";
                    shown (js_or (prop date "dueTimestamp") (JStr "not set"));
                    when_ (truthy (prop date "targetColumnId"))
                      (cat [" (target column: "; shown (prop date "targetColumnId"); ")"]);
                    when_ (truthy (prop date "status"))
                      (cat [" ["; shown (prop date "status"); "]"]);
                    nl])]
    | None => ""
    end;
    match some_nonempty (t_relations task) with
    | Some relations =>
        cat ["- Relations ("; shown (length relations); "):"; nl;
             forEach relations (fun relation index =>
               cat ["  "; shown (index + 1)%nat; ". ";
                    shown (js_or (prop relation "type") (JStr "related")); ": ";
                    shown (js_or (js_or (prop relation "taskId")
                                        (prop relation "relatedTaskId"))
                                 (JStr "unknown"));
                    when_ (truthy (js_or (prop relation "taskName")
                                         (prop relation "relatedTaskName")))
                      (cat [" "; dquote;
                            shown (js_or (prop relation "taskName")
                                         (prop relation "relatedTaskName"));
                            dquote]);
                    when_ (truthy (prop relation "boardId"))
                      (cat [" (board: "; shown (prop relation "boardId"); ")"]);
                    nl])]
    | None => ""
    end
  ].

Definition get_task_details_try (args : JsObject) : Prog SvcCall ToolResult :=
  let taskId := prop args "taskId" in
  let includePosition := prop args "includePosition" in
  task ← await (getTaskDetails taskId includePosition);
  mret (text_result (formattedDetails task)).

Definition get_task_details : Registration :=
  {| reg_name := "get-task-details";
     reg_schema := get_task_details_schema;
     reg_try := get_task_details_try;
     reg_failure := "Failed to get task details: " |}.

(** *** update-task *)
Definition update_task_updates (args : JsObject) : JsObject :=
  let updates : JsObject := ∅ in
  let updates := set_if_defined "name" (prop args "name") updates in
  let updates := set_if_defined "columnId" (prop args "columnId") updates in
  let updates := set_if_defined "description" (prop args "description") updates in
  let updates := set_if_defined "color" (prop args "color") updates in
  let updates := set_if_defined "position" (prop args "position") updates in
  let updates := set_if_defined "responsibleUserId" (prop args "responsibleUserId") updates in
  let updates := set_if_defined "totalSecondsEstimate" (prop args "totalSecondsEstimate") updates in
  let updates := set_if_defined "pointsEstimate" (prop args "pointsEstimate") updates in
  updates.

Definition update_task_response (updatedTask : KanbanTask) : string :=
  cat [
    "Successfully updated task!"; nl;
    "- ID: "; t_id updatedTask; nl;
    "- Name: "; t_name updatedTask; nl;
    "- Column ID: "; t_columnId updatedTask; nl;
    when_ (truthy (t_description updatedTask))
      (cat ["- Description: "; shown (t_description updatedTask); nl]);
    when_ (truthy (t_color updatedTask))
      (cat ["- Color: "; shown (t_color updatedTask); nl]);
    when_ (truthy (t_position updatedTask))
      (cat ["- Position: "; shown (t_position updatedTask); nl]);
    when_ (truthy (t_groupingDate updatedTask))
      (cat ["- Grouping Date: "; shown (t_groupingDate updatedTask); nl])
  ].

Definition update_task_try (args : JsObject) : Prog SvcCall ToolResult :=
  let taskId := prop args "taskId" in
  let updates := update_task_updates args in
  await (updateTask taskId updates);;
  updatedTask ← await (getTaskDetails taskId JUndefined);
  mret (text_result (update_task_response updatedTask)).

Definition update_task : Registration :=
  {| reg_name := "update-task";
     reg_schema := update_task_schema;
     reg_try := update_task_try;
     reg_failure := "Failed to update task: " |}.

(** *** get-all-tasks *)
(** The notice of a truncated column. *)
Definition truncation_notice : string :=
  cat ["   "; glyph_warning; " This column has more tasks (limited to 20)"; nl].

(** The heading of a column and the lines of its tasks. *)
Definition column_listing (column : KanbanAllTasksResponse) : string :=
  cat [
    glyph_column; " **"; at_columnName column; "** (";
    shown (length (at_tasks column)); " tasks):"; nl;
    (if (length (at_tasks column) =? 0)%nat
     then cat ["   - No tasks in this column"; nl]
     else forEach (at_tasks column) (fun task index =>
            cat ["   "; shown (index + 1)%nat; ". "; t_name task;
                 match t_color task with
                 | Some color =>
                     when_ (truthy color) (cat [" ["; toUpperCase color; "]"])
                 | None => ""
                 end;
                 match t_description task with
                 | Some description =>
                     when_ (truthy description)
                       (cat [" - "; first_100 description])
                 | None => ""
                 end;
                 " [ID: "; t_id task; "]"; nl]))
  ].

(** What one turn of the loop over the columns appends. *)
Definition column_block (column : KanbanAllTasksResponse) : string :=
  cat [
    column_listing column;
    when_ (at_tasksLimited column) truncation_notice;
    nl
  ].

Definition get_all_tasks_formattedResponse
    (allTasksResponse : list KanbanAllTasksResponse) : string :=
  cat ["All Tasks by Column:"; nl; nl; cat (map column_block allTasksResponse)].

Definition get_all_tasks_try (args : JsObject) : Prog SvcCall ToolResult :=
  allTasksResponse ← await getAllTasks;
  mret (text_result (get_all_tasks_formattedResponse allTasksResponse)).

Definition get_all_tasks : Registration :=
  {| reg_name := "get-all-tasks";
     reg_schema := get_all_tasks_schema;
     reg_try := get_all_tasks_try;
     reg_failure := "Failed to get all tasks: " |}.

(** *** add-subtask *)
Definition add_subtask_subtask (args : JsObject) : JsObject :=
  let subtask : JsObject := object_literal [("name", prop args "name")] in
  let subtask := set_if_defined "finished" (prop args "finished") subtask in
  let subtask := set_if_defined "userId" (prop args "userId") subtask in
  let subtask := set_if_defined "dueDateTimestamp" (prop args "dueDateTimestamp") subtask in
  let subtask := set_if_defined "dueDateTimestampLocal"
                   (prop args "dueDateTimestampLocal") subtask in
  subtask.

Definition add_subtask_try (args : JsObject) : Prog SvcCall ToolResult :=
  let taskId := prop args "taskId" in
  let name := prop args "name" in
  let subtask := add_subtask_subtask args in
  result ← await (addSubtask taskId subtask);
  updatedTask ← await (getTaskDetails taskId JUndefined);
  mret (text_result (cat [
    "Successfully added subtask!"; nl;
    "- Subtask name: "; shown name; nl;
    "- Inserted at position: "; shown (asr_insertIndex result); nl;
    "- Task: "; t_name updatedTask; nl;
    match some_nonempty (t_subTasks updatedTask) with
    | Some subTasks =>
        cat [nl; "Current subtasks ("; shown (length subTasks); "):"; nl;
             forEach subTasks (fun subtask index =>
               let status := if truthy (prop subtask "finished")
                             then glyph_finished else glyph_unfinished in
               cat ["  "; shown (index + 1)%nat; ". "; status; " ";
                    shown (js_or (prop subtask "name") (JStr "Unnamed subtask"));
                    when_ (truthy (prop subtask "userId"))
                      (cat [" (assigned to: "; shown (prop subtask "userId"); ")"]);
                    when_ (truthy (prop subtask "dueDateTimestamp"))
                      (cat [" (due: "; shown (prop subtask "dueDateTimestamp"); ")"]);
                    nl])]
    | None => ""
    end])).

Definition add_subtask : Registration :=
  {| reg_name := "add-subtask";
     reg_schema := add_subtask_schema;
     reg_try := add_subtask_try;
     reg_failure := "Failed to add subtask: " |}.

(** *** update-subtask-by-position *)
Definition update_subtask_updates (args : JsObject) : JsObject :=
  let updates : JsObject := ∅ in
  let updates := set_if_defined "name" (prop args "name") updates in
  let updates := set_if_defined "finished" (prop args "finished") updates in
  let updates := set_if_defined "userId" (prop args "userId") updates in
  let updates := set_if_defined "dueDateTimestamp" (prop args "dueDateTimestamp") updates in
  let updates := set_if_defined "dueDateTimestampLocal"
                   (prop args "dueDateTimestampLocal") updates in
  updates.

(** [idx === index], [idx] a position of [forEach] and [index] the argument. *)
Definition is_index (idx : nat) (index : JsValue) : bool :=
  match index with
  | JNum n => Z.of_nat idx =? n
  | _ => false
  end.

Definition update_subtask_by_position_try (args : JsObject) : Prog SvcCall ToolResult :=
  let taskId := prop args "taskId" in
  let index := prop args "index" in
  let updates := update_subtask_updates args in
  await (updateSubtaskByPosition taskId index updates);;
  updatedTask ← await (getTaskDetails taskId JUndefined);
  mret (text_result (cat [
    "Successfully updated subtask at position "; shown index; "!"; nl;
    "- Task: "; t_name updatedTask; nl;
    match some_nonempty (t_subTasks updatedTask) with
    | Some subTasks =>
        cat [nl; "Current subtasks ("; shown (length subTasks); "):"; nl;
             forEach subTasks (fun subtask idx =>
               let status := if truthy (prop subtask "finished")
                             then glyph_finished else glyph_unfinished in
               let highlight := if is_index idx index
                                then cat [" "; glyph_updated; " UPDATED"] else "" in
               cat ["  "; shown (idx + 1)%nat; ". "; status; " ";
                    shown (js_or (prop subtask "name") (JStr "Unnamed subtask"));
                    when_ (truthy (prop subtask "userId"))
                      (cat [" (assigned to: "; shown (prop subtask "userId"); ")"]);
                    when_ (truthy (prop subtask "dueDateTimestamp"))
                      (cat [" (due: "; shown (prop subtask "dueDateTimestamp"); ")"]);
                    highlight; nl])]
    | None => cat [nl; "No subtasks found in this task."]
    end])).

Definition update_subtask_by_position : Registration :=
  {| reg_name := "update-subtask-by-position";
     reg_schema := update_subtask_by_position_schema;
     reg_try := update_subtask_by_position_try;
     reg_failure := "Failed to update subtask: " |}.

(** The numbered list of labels that add-label and update-label print. *)
Definition current_labels (updatedTask : KanbanTask) : string :=
  match some_nonempty (t_labels updatedTask) with
  | Some labels =>
      cat [nl; "Current labels ("; shown (length labels); "):"; nl;
           forEach labels (fun label index =>
             let pinnedStatus := if truthy (prop label "pinned")
                                 then glyph_pinned else glyph_label in
             cat ["  "; shown (index + 1)%nat; ". "; pinnedStatus; " ";
                  shown (prop label "name"); nl])]
  | None => ""
  end.

(** *** add-label *)
Definition add_label_label (args : JsObject) : JsObject :=
  let label : JsObject := object_literal [("name", prop args "name")] in
  let label := set_if_defined "pinned" (prop args "pinned") label in
  label.

Definition add_label_try (args : JsObject) : Prog SvcCall ToolResult :=
  let taskId := prop args "taskId" in
  let name := prop args "name" in
  let pinned := prop args "pinned" in
  let label := add_label_label args in
  result ← await (addLabel taskId label);
  updatedTask ← await (getTaskDetails taskId JUndefined);
  mret (text_result (cat [
    "Successfully added label!"; nl;
    "- Label name: "; shown name; nl;
    "- Pinned: "; shown (js_or pinned (JBool false)); nl;
    "- Inserted at position: "; shown (alr_insertIndex result); nl;
    "- Task: "; t_name updatedTask; nl;
    current_labels updatedTask])).

Definition add_label : Registration :=
  {| reg_name := "add-label";
     reg_schema := add_label_schema;
     reg_try := add_label_try;
     reg_failure := "Failed to add label: " |}.

(** *** update-label *)
Definition update_label_updates (args : JsObject) : JsObject :=
  let updates : JsObject := ∅ in
  let updates := set_if_defined "name" (prop args "name") updates in
  let updates := set_if_defined "pinned" (prop args "pinned") updates in
  updates.

Definition update_label_try (args : JsObject) : Prog SvcCall ToolResult :=
  let taskId := prop args "taskId" in
  let labelName := prop args "labelName" in
  let name := prop args "name" in
  let pinned := prop args "pinned" in
  let updates := update_label_updates args in
  await (updateLabel taskId labelName updates);;
  updatedTask ← await (getTaskDetails taskId JUndefined);
  mret (text_result (cat [
    "Successfully updated label!"; nl;
    "- Original label: "; shown labelName; nl;
    when_ (truthy name) (cat ["- New name: "; shown name; nl]);
    when_ (is_defined pinned) (cat ["- Pinned: "; shown pinned; nl]);
    "- Task: "; t_name updatedTask; nl;
    current_labels updatedTask])).

Definition update_label : Registration :=
  {| reg_name := "update-label";
     reg_schema := update_label_schema;
     reg_try := update_label_try;
     reg_failure := "Failed to update label: " |}.

(** *** set-task-due-date *)

(** [if (v) o.k = v;] *)
Definition set_if_truthy (k : string) (v : JsValue) (o : JsObject) : JsObject :=
  if truthy v then set_prop k v o else o.

Definition set_task_due_date_dateInfo (args : JsObject) : JsObject :=
  let dateInfo : JsObject :=
    object_literal [("dueTimestamp", prop args "dueTimestamp");
                    ("targetColumnId", prop args "targetColumnId")] in
  let dateInfo := set_if_truthy "dueTimestampLocal" (prop args "dueTimestampLocal") dateInfo in
  let dateInfo := set_if_truthy "dateType" (prop args "dateType") dateInfo in
  let dateInfo := set_if_truthy "status" (prop args "status") dateInfo in
  dateInfo.

Definition set_task_due_date_try (args : JsObject) : Prog SvcCall ToolResult :=
  let taskId := prop args "taskId" in
  let dueTimestamp := prop args "dueTimestamp" in
  let targetColumnId := prop args "targetColumnId" in
  let status := prop args "status" in
  let dateInfo := set_task_due_date_dateInfo args in
  await (setTaskDueDate taskId dateInfo);;
  updatedTask ← await (getTaskDetails taskId JUndefined);
  mret (text_result (cat [
    "Successfully set due date!"; nl;
    "- Task: "; t_name updatedTask; nl;
    "- Due: "; shown dueTimestamp; nl;
    "- Target column: "; shown targetColumnId; nl;
    "- Status: "; shown (js_or status (JStr "active")); nl;
    match some_nonempty (t_dates updatedTask) with
    | Some dates =>
        cat [nl; "Current dates ("; shown (length dates); "):"; nl;
             forEach dates (fun date index =>
               cat ["  "; shown (index + 1)%nat; ". ";
                    shown (js_or (prop date "dateType") (JStr "date")); ": ";
                    shown (js_or (prop date "dueTimestamp") (JStr "not set")); nl])]
    | None => ""
    end])).

Definition set_task_due_date : Registration :=
  {| reg_name := "set-task-due-date";
     reg_schema := set_task_due_date_schema;
     reg_try := set_task_due_date_try;
     reg_failure := "Failed to set due date: " |}.

(** *** update-custom-field *)
Definition update_custom_field_value (args : JsObject) : JsObject :=
  let value : JsObject := ∅ in
  let value := set_if_defined "text" (prop args "textValue") value in
  let value := set_if_defined "number" (prop args "numberValue") value in
  value.

Definition update_custom_field_try (args : JsObject) : Prog SvcCall ToolResult :=
  let taskId := prop args "taskId" in
  let customFieldId := prop args "customFieldId" in
  let textValue := prop args "textValue" in
  let numberValue := prop args "numberValue" in
  let value := update_custom_field_value args in
  await (updateCustomField taskId customFieldId (object_literal [("value", JObj value)]));;
  updatedTask ← await (getTaskDetails taskId JUndefined);
  mret (text_result (cat [
    "Successfully updated custom field!"; nl;
    "- Task: "; t_name updatedTask; nl;
    "- Custom field ID: "; shown customFieldId; nl;
    when_ (truthy textValue) (cat ["- Text value: "; shown textValue; nl]);
    when_ (truthy numberValue) (cat ["- Number value: "; shown numberValue; nl]);
    match some_nonempty (t_customFields updatedTask) with
    | Some customFields =>
        cat [nl; "Current custom fields ("; shown (length customFields); "):"; nl;
             forEach customFields (fun field index =>
               cat ["  "; shown (index + 1)%nat; ". Field: ";
                    shown (js_or (js_or (prop field "name") (prop field "id"))
                                 (JStr "unnamed")); nl])]
    | None => ""
    end])).

Definition update_custom_field : Registration :=
  {| reg_name := "update-custom-field";
     reg_schema := update_custom_field_schema;
     reg_try := update_custom_field_try;
     reg_failure := "Failed to update custom field: " |}.

(** *** add-comment *)
Definition add_comment_comment (args : JsObject) : JsObject :=
  let comment : JsObject := object_literal [("text", prop args "text")] in
  let comment := set_if_defined "authorUserId" (prop args "authorUserId") comment in
  let comment := set_if_defined "createdTimestamp" (prop args "createdTimestamp") comment in
  comment.

Definition add_comment_try (args : JsObject) : Prog SvcCall ToolResult :=
  let taskId := prop args "taskId" in
  let text := prop args "text" in
  let authorUserId := prop args "authorUserId" in
  let comment := add_comment_comment args in
  result ← await (addComment taskId comment);
  updatedTask ← await (getTaskDetails taskId JUndefined);
  text_s ← string_method text "text" "substring";
  mret (text_result (cat [
    "Successfully added comment!"; nl;
    "- Comment ID: "; acr_taskCommentId result; nl;
    "- Text: "; first_100 text_s; nl;
    "- Task: "; t_name updatedTask; nl;
    when_ (truthy authorUserId) (cat ["- Author: "; shown authorUserId; nl])])).

Definition add_comment : Registration :=
  {| reg_name := "add-comment";
     reg_schema := add_comment_schema;
     reg_try := add_comment_try;
     reg_failure := "Failed to add comment: " |}.

(** *** update-comment *)
Definition update_comment_updates (args : JsObject) : JsObject :=
  let updates : JsObject := ∅ in
  let updates := set_if_defined "text" (prop args "text") updates in
  let updates := set_if_defined "authorUserId" (prop args "authorUserId") updates in
  let updates := set_if_defined "createdTimestamp" (prop args "createdTimestamp") updates in
  let updates := set_if_defined "updatedTimestamp" (prop args "updatedTimestamp") updates in
  updates.

Definition update_comment_try (args : JsObject) : Prog SvcCall ToolResult :=
  let taskId := prop args "taskId" in
  let commentId := prop args "commentId" in
  let text := prop args "text" in
  let authorUserId := prop args "authorUserId" in
  let updates := update_comment_updates args in
  await (updateComment taskId commentId updates);;
  updatedTask ← await (getTaskDetails taskId JUndefined);
  newText ← (if truthy text
             then text_s ← string_method text "text" "substring";
                  mret (cat ["- New text: "; first_100 text_s; nl])
             else mret "");
  mret (text_result (cat [
    "Successfully updated comment!"; nl;
    "- Task: "; t_name updatedTask; nl;
    "- Comment ID: "; shown commentId; nl;
    newText;
    when_ (truthy authorUserId) (cat ["- Author: "; shown authorUserId; nl])])).

Definition update_comment : Registration :=
  {| reg_name := "update-comment";
     reg_schema := update_comment_schema;
     reg_try := update_comment_try;
     reg_failure := "Failed to update comment: " |}.

(** The numbered list of added subtasks that the two bulk tools print. *)
Definition added_lines (addedSubtasks : list AddedSubtask) : string :=
  forEach addedSubtasks (fun subtask index =>
    cat [shown (index + 1)%nat; ". "; dquote; as_name subtask; dquote;
         " (position: "; shown (as_insertIndex subtask); ")"; nl]).

(** The status list of subtasks that the two bulk tools print. *)
Definition status_lines (subTasks : list JsObject) : string :=
  forEach subTasks (fun subtask index =>
    let status := if truthy (prop subtask "finished")
                  then glyph_finished else glyph_unfinished in
    cat ["  "; shown (index + 1)%nat; ". "; status; " ";
         shown (js_or (prop subtask "name") (JStr "Unnamed subtask")); nl]).

(** *** add-subtasks *)
Definition add_subtasks_try (args : JsObject) : Prog SvcCall ToolResult :=
  let taskId := prop args "taskId" in
  let subtasks := prop args "subtasks" in
  result ← await (addMultipleSubtasks taskId (object_literal [("subtasks", subtasks)]));
  updatedTask ← await (getTaskDetails taskId JUndefined);
  mret (text_result (cat [
    "Successfully added "; shown (asr_totalAdded result); " subtasks!"; nl;
    "- Task: "; t_name updatedTask; nl;
    "- Total subtasks added: "; shown (asr_totalAdded result); nl; nl;
    added_lines (asr_addedSubtasks result);
    match some_nonempty (t_subTasks updatedTask) with
    | Some subTasks =>
        cat [nl; "All current subtasks ("; shown (length subTasks); "):"; nl;
             status_lines subTasks]
    | None => ""
    end])).

Definition add_subtasks : Registration :=
  {| reg_name := "add-subtasks";
     reg_schema := add_subtasks_schema;
     reg_try := add_subtasks_try;
     reg_failure := "Failed to add subtasks: " |}.

(** *** create-task-with-subtasks *)
Definition create_task_with_subtasks_request (args : JsObject) : JsObject :=
  object_literal [("name", prop args "name");
                  ("columnId", prop args "columnId");
                  ("description", prop args "description");
                  ("color", prop args "color");
                  ("position", prop args "position");
                  ("subtasks", prop args "subtasks")].

Definition create_task_with_subtasks_response
    (args : JsObject) (result : CreateTaskWithSubtasksResponse)
    (createdTask : KanbanTask) : string :=
  let columnId := prop args "columnId" in
  let description := prop args "description" in
  let color := prop args "color" in
  cat [
    "Successfully created task with "; shown (cws_totalSubtasks result); " subtasks!"; nl;
    "- Task ID: "; cws_taskId result; nl;
    "- Task Name: "; cws_taskName result; nl;
    "- Column ID: "; shown columnId; nl;
    when_ (truthy description) (cat ["- Description: "; shown description; nl]);
    when_ (truthy color) (cat ["- Color: "; shown color; nl]);
    "- Total subtasks: "; shown (cws_totalSubtasks result); nl; nl;
    "Added subtasks:"; nl;
    added_lines (cws_addedSubtasks result);
    match some_nonempty (t_subTasks createdTask) with
    | Some subTasks =>
        cat [nl; "Current subtasks status:"; nl; status_lines subTasks]
    | None => ""
    end].

Definition create_task_with_subtasks_try (args : JsObject) : Prog SvcCall ToolResult :=
  result ← await (createTaskWithSubtasks (create_task_with_subtasks_request args));
  createdTask ← await (getTaskDetails (JStr (cws_taskId result)) JUndefined);
  mret (text_result (create_task_with_subtasks_response args result createdTask)).

Definition create_task_with_subtasks : Registration :=
  {| reg_name := "create-task-with-subtasks";
     reg_schema := create_task_with_subtasks_schema;
     reg_try := create_task_with_subtasks_try;
     reg_failure := "Failed to create task with subtasks: " |}.

(** The sixteen registrations, in the order of the entry module. *)
Definition server_tools : list Registration := [
  get_board;
  create_task;
  get_tasks;
  get_task_details;
  update_task;
  get_all_tasks;
  add_subtask;
  update_subtask_by_position;
  add_label;
  update_label;
  set_task_due_date;
  update_custom_field;
  add_comment;
  update_comment;
  add_subtasks;
  create_task_with_subtasks
].

(** A tool call as the server dispatches it: the arguments are parsed
    against the registered schema, and the handler runs only on arguments
    the schema accepted; it is handed the parsed object. *)
Inductive Invocation : Type :=
| UnknownTool
| InvalidArguments
| Handled (p : Prog SvcCall ToolResult).

Definition callTool (name : string) (arguments : JsValue) : Invocation :=
  match find (fun r => String.eqb (reg_name r) name) server_tools with
  | None => UnknownTool
  | Some r =>
      match zod_parse (z_object (reg_schema r)) arguments with
      | Some (JObj args) => Handled (reg_handler r args)
      | _ => InvalidArguments
      end
  end.

(** The calls to the service that a tool call makes. *)
Definition service_calls {S} (h : Answers SvcCall S) (s : S) (i : Invocation)
  : list (sigT SvcCall) :=
  match i with
  | Handled p => calls (run h p s)
  | _ => []
  end.

(** ** The remote client

    kanban-service.ts is not among the sources; the four methods below are
    modelled from the specification (section 4.2), over the calls to the
    remote board API that the specification names (section 6). *)
Module KanbanService.

(** Modelled from the spec: the calls of the remote board API that the
    four methods make (section 6: tasks create/read/update and list-all,
    subtasks append one), one read of a task, one read of the whole board,
    and the writes. *)
Inductive ApiCall : Type → Type :=
| fetchTask (taskId : JsValue) : ApiCall KanbanTask
| fetchAllTasks : ApiCall (list (Column * list KanbanTask))
| putTask (taskId : JsValue) (body : JsObject) : ApiCall unit
| postTask (body : JsObject) : ApiCall CreateTaskResponse
| postSubtask (taskId : JsValue) (subtask : JsValue) : ApiCall AddSubtaskResponse.

(** Modelled from the spec: which calls of the remote board API write. *)
Definition is_write (c : sigT ApiCall) : bool :=
  match projT2 c with
  | fetchTask _ | fetchAllTasks => false
  | putTask _ _ | postTask _ | postSubtask _ _ => true
  end.

(** Modelled from the spec: "applying the partial update to that one
    element", [{ ...old, ...updates }]. *)
Definition patch (updates old : JsObject) : JsObject := updates ∪ old.

(** Modelled from the spec: "validating the index against the current
    subtask count"; the position [index] names among [count] elements, if it
    names one. *)
Definition position_in (index : JsValue) (count : nat) : option nat :=
  match index with
  | JNum n => if (0 <=? n) && (n <? Z.of_nat count) then Some (Z.to_nat n) else None
  | _ => None
  end.

(** Modelled from the spec: the "descriptive out-of-range error"; the
    specification does not fix its wording. *)
Definition index_out_of_range (index : JsValue) (count : nat) : KanbanError :=
  Error (cat ["Subtask index "; shown index; " is out of range (task has ";
              shown count; " subtasks)"]).

(** Modelled from the spec: KanbanService.updateSubtaskByPosition.
    "first fetching the current task, validating the index against the
    current subtask count, applying the partial update to that one element
    of the array, and submitting the entire modified array back". *)
Definition updateSubtaskByPosition (taskId index : JsValue) (updates : JsObject)
  : Prog ApiCall unit :=
  task ← await (fetchTask taskId);
  let subTasks := default [] (t_subTasks task) in
  match position_in index (length subTasks) with
  | None => Throw (index_out_of_range index (length subTasks))
  | Some i =>
      await (putTask taskId
               {[ "subTasks" := JArr (JObj <$> alter (patch updates) i subTasks) ]})
  end.

(** Modelled from the spec: "whose name equals the given name",
    [label.name === labelName], the names being strings. *)
Definition named (labelName : JsValue) (label : JsObject) : bool :=
  match prop label "name", labelName with
  | JStr a, JStr b => String.eqb a b
  | _, _ => false
  end.

(** Modelled from the spec: the "descriptive not-found error"; the
    specification does not fix its wording. *)
Definition label_not_found (labelName : JsValue) : KanbanError :=
  Error (cat ["Label '"; shown labelName; "' not found on task"]).

(** Modelled from the spec: KanbanService.updateLabel. "fetch current
    task, find the first label whose name equals the given name, apply
    partial update to that element, replace the full label array". *)
Definition updateLabel (taskId labelName : JsValue) (updates : JsObject)
  : Prog ApiCall unit :=
  task ← await (fetchTask taskId);
  let labels := default [] (t_labels task) in
  match list_find (fun label => named labelName label) labels with
  | None => Throw (label_not_found labelName)
  | Some (i, _) =>
      await (putTask taskId
               {[ "labels" := JArr (JObj <$> alter (patch updates) i labels) ]})
  end.

(** Modelled from the spec: the cap of KanbanService.getAllTasks. "each
    column capped at 20 returned tasks with a 'more exist' flag". *)
Definition limit_column (column : Column * list KanbanTask) : KanbanAllTasksResponse :=
  {| at_columnId := col_uniqueId column.1;
     at_columnName := col_name column.1;
     at_tasksLimited := (20 <? length column.2)%nat;
     at_tasks := take 20 column.2 |}.

(** Modelled from the spec: KanbanService.getAllTasks. *)
Definition getAllTasks : Prog ApiCall (list KanbanAllTasksResponse) :=
  columns ← await fetchAllTasks;
  mret (map limit_column columns).

(** Modelled from the spec: the [subtasks] of a request, "in the order
    supplied". *)
Definition subtasks_of (req : JsObject) : list JsValue :=
  match prop req "subtasks" with
  | JArr items => items
  | _ => []
  end.

(** Modelled from the spec: the sequential append shared by
    createTaskWithSubtasks and addMultipleSubtasks. "issue one subtask-add
    call per subtask in the order supplied, collecting each insertion
    index". *)
Fixpoint addEach (taskId : JsValue) (subtasks : list JsValue)
  : Prog ApiCall (list AddedSubtask) :=
  match subtasks with
  | [] => mret []
  | subtask :: rest =>
      added ← await (postSubtask taskId subtask);
      more ← addEach taskId rest;
      mret ({| as_name := shown (member subtask "name");
               as_insertIndex := asr_insertIndex added |} :: more)
  end.

(** Modelled from the spec: KanbanService.createTaskWithSubtasks. "create
    the task, then issue one subtask-add call per subtask in the order
    supplied, collecting each insertion index". *)
Definition createTaskWithSubtasks (req : JsObject)
  : Prog ApiCall CreateTaskWithSubtasksResponse :=
  created ← await (postTask (delete "subtasks" req));
  addedSubtasks ← addEach (JStr (ctr_taskId created)) (subtasks_of req);
  mret {| cws_taskId := ctr_taskId created;
          cws_taskName := shown (prop req "name");
          cws_addedSubtasks := addedSubtasks;
          cws_totalSubtasks := Z.of_nat (length addedSubtasks) |}.

(** The calls createTaskWithSubtasks is to make for [req], the task having
    been created as [taskId]. *)
Definition expected_calls (req : JsObject) (taskId : string) : list (sigT ApiCall) :=
  existT _ (postTask (delete "subtasks" req))
  :: map (fun subtask => existT _ (postSubtask (JStr taskId) subtask)) (subtasks_of req).

End KanbanService.

(** ** The setup wizard (entry module, [createCursorMcpConfig]) *)

Inductive FsCall : Type → Type :=
| fs_mkdir (dir : string) : FsCall unit
| fs_readFile (file : string) : FsCall string
| fs_copyFile (src dest : string) : FsCall unit
| fs_writeFile (file data : string) : FsCall unit
| console_log (msg : string) : FsCall unit
| console_warn (msg : string) : FsCall unit.

(** [console.log] and [console.warn] do not throw. *)
Definition say {X} (c : FsCall X) : Prog FsCall unit :=
  Await c (fun _ => Ret tt).

(** The own enumerable properties of a value, as [{ ...v }] copies them and
    [Object.keys(v)] lists them: an array and a string have their indices. *)
Definition indexed (items : list JsValue) : JsObject :=
  list_to_map (imap (fun i x => (pretty i, x)) items).

Definition characters (s : string) : list JsValue :=
  map (fun c => JStr (String c EmptyString)) (String.list_ascii_of_string s).

Definition spread (v : JsValue) : JsObject :=
  match v with
  | JObj o => o
  | JArr items => indexed items
  | JStr s => indexed (characters s)
  | _ => ∅
  end.

(** [existingConfig && existingConfig.mcpServers &&
    Object.keys(existingConfig.mcpServers).length > 0] *)
Definition has_servers (existingConfig : JsValue) : bool :=
  truthy existingConfig
  && truthy (member existingConfig "mcpServers")
  && (0 <? size (spread (member existingConfig "mcpServers")))%nat.

(** The files of the disk: path to content. *)
Definition fs_answers : Answers FsCall (gmap string string) :=
  fun X c =>
    match c in FsCall X return gmap string string → (KanbanError + X) * gmap string string with
    | fs_mkdir _ => fun files => (inr tt, files)
    | fs_readFile file => fun files =>
        match files !! file with
        | Some data => (inr data, files)
        | None => (inl (Error "ENOENT: no such file or directory"), files)
        end
    | fs_copyFile src dest => fun files =>
        match files !! src with
        | Some data => (inr tt, <[dest := data]> files)
        | None => (inl (Error "ENOENT: no such file or directory"), files)
        end
    | fs_writeFile file data => fun files => (inr tt, <[file := data]> files)
    | console_log _ => fun files => (inr tt, files)
    | console_warn _ => fun files => (inr tt, files)
    end.

Section Wizard.

(** The runtime's [JSON.parse] (nothing when it throws),
    [JSON.stringify(_, null, 2)], [path.join], [path.basename], and the
    reading of [Date.now()]. *)
Variable JSON_parse : string → option JsValue.
Variable JSON_stringify : JsValue → string.
Variable path_join : string → string → string.
Variable path_basename : string → string.
Variable Date_now : Z.

Definition parse (content : string) : Prog FsCall JsValue :=
  match JSON_parse content with
  | Some v => Ret v
  | None => Throw (Error "Unexpected token in JSON")
  end.

Definition mcpJsonPath_of (projectPath : string) : string :=
  path_join (path_join projectPath ".cursor") "mcp.json".

Definition backupPath_of (mcpJsonPath : string) : string :=
  cat [mcpJsonPath; ".backup."; shown Date_now].

(** [mcpConfig.mcpServers] *)
Definition mcpConfig_mcpServers (execConfig : JsObject) (apiToken : string) : JsObject :=
  {[ "kanban-flow" :=
       JObj (<["env" := JObj {[ "KANBAN_API_TOKEN" := JStr apiToken ]}]> execConfig) ]}.

(** [finalConfig] *)
Definition finalConfig_of (existingConfig : JsValue) (execConfig : JsObject)
    (apiToken : string) : JsObject :=
  <["mcpServers" :=
      JObj (mcpConfig_mcpServers execConfig apiToken
            ∪ spread (member existingConfig "mcpServers"))]>
    (spread existingConfig).

Definition createCursorMcpConfig (projectPath : string) (execConfig : JsObject)
    (apiToken : string) : Prog FsCall string :=
  let cursorDir := path_join projectPath ".cursor" in
  let mcpJsonPath := path_join cursorDir "mcp.json" in
  try_catch (await (fs_mkdir cursorDir)) (fun _ => mret tt);;
  read ← try_catch
    (existingContent ← await (fs_readFile mcpJsonPath);
     existingConfig ← parse existingContent;
     let isExistingFile := true in
     let hasExistingServers := has_servers existingConfig in
     (if hasExistingServers
      then
        say (console_log
               (cat ["ðŸ“‹ Found existing MCP configuration with ";
                     shown (size (spread (member existingConfig "mcpServers")));
                     " server(s)"]));;
        if truthy (member
                     (member existingConfig "mcpServers") "kanban-flow")
        then say (console_log "ðŸ”„ Updating existing kanban-flow configuration...")
        else say (console_log "âž• Adding kanban-flow to existing configuration...")
      else mret tt);;
     mret (existingConfig, isExistingFile, hasExistingServers))
    (fun _ =>
       say (console_log "ðŸ“ Creating new MCP configuration file...");;
       mret (JObj ∅, false, false));
  let '(existingConfig, isExistingFile, hasExistingServers) := read in
  let finalConfig := finalConfig_of existingConfig execConfig apiToken in
  (if isExistingFile && hasExistingServers
   then
     let backupPath := backupPath_of mcpJsonPath in
     try_catch
       (await (fs_copyFile mcpJsonPath backupPath);;
        say (console_log (cat ["ðŸ’¾ Created backup: "; path_basename backupPath])))
       (fun _ => say (console_warn "âš ï¸  Could not create backup file"))
   else mret tt);;
  await (fs_writeFile mcpJsonPath (JSON_stringify (JObj finalConfig)));;
  mret mcpJsonPath.

End Wizard.

(** ** Stand-ins for the other side, to run the programs on *)

(** A service that rejects every call with the same error. *)
Definition rejecting (e : KanbanError) : Answers SvcCall unit :=
  fun X c s => (inl e, s).

Definition sample_task (position : option Z) : KanbanTask :=
  {| t_id := "t1"; t_name := "Write report"; t_columnId := "col-1";
     t_swimlaneId := None; t_position := position;
     t_description := Some "Quarterly numbers"; t_color := Some "green";
     t_number := None; t_responsibleUserId := None;
     t_totalSecondsSpent := None; t_totalSecondsEstimate := None;
     t_pointsEstimate := None; t_groupingDate := Some "2024-05-01";
     t_dates := None;
     t_subTasks := Some [ {[ "name" := JStr "draft" ]};
                          {[ "name" := JStr "review" ]} ];
     t_labels := Some [ {[ "name" := JStr "urgent" ]};
                        {[ "name" := JStr "Foo"; "pinned" := JBool false ]};
                        {[ "name" := JStr "Foo"; "pinned" := JBool true ]} ];
     t_collaborators := None; t_customFields := None; t_relations := None |}.

(** A service that accepts every call and answers every read with [task]. *)
Definition accepting (task : KanbanTask) : Answers SvcCall unit :=
  fun X c =>
    match c in SvcCall X return unit → (KanbanError + X) * unit with
    | getBoard => fun s =>
        (inr {| b_id := "b1"; b_name := "Board"; b_columns := [];
                b_swimlanes := None; b_colors := None |}, s)
    | createTask _ => fun s => (inr {| ctr_taskId := t_id task |}, s)
    | getTasksByColumnId _ => fun s => (inr [task], s)
    | getTaskDetails _ _ => fun s => (inr task, s)
    | updateTask _ _ => fun s => (inr tt, s)
    | getAllTasks => fun s => (inr [], s)
    | addSubtask _ _ => fun s => (inr {| asr_insertIndex := 0 |}, s)
    | updateSubtaskByPosition _ _ _ => fun s => (inr tt, s)
    | addLabel _ _ => fun s => (inr {| alr_insertIndex := 0 |}, s)
    | updateLabel _ _ _ => fun s => (inr tt, s)
    | setTaskDueDate _ _ => fun s => (inr tt, s)
    | updateCustomField _ _ _ => fun s => (inr tt, s)
    | addComment _ _ => fun s => (inr {| acr_taskCommentId := "c1" |}, s)
    | updateComment _ _ _ => fun s => (inr tt, s)
    | addMultipleSubtasks _ _ => fun s =>
        (inr {| asr_addedSubtasks := []; asr_totalAdded := 0 |}, s)
    | createTaskWithSubtasks _ => fun s =>
        (inr {| cws_taskId := t_id task; cws_taskName := t_name task;
                cws_addedSubtasks := []; cws_totalSubtasks := 0 |}, s)
    end.

(** A remote board that answers every read of a task with [task], accepts
    every write, and numbers the subtasks it is sent from [n] on. *)
Definition remote (task : KanbanTask) : Answers KanbanService.ApiCall nat :=
  fun X c =>
    match c in KanbanService.ApiCall X return nat → (KanbanError + X) * nat with
    | KanbanService.fetchTask _ => fun n => (inr task, n)
    | KanbanService.fetchAllTasks => fun n => (inr [], n)
    | KanbanService.putTask _ _ => fun n => (inr tt, n)
    | KanbanService.postTask _ => fun n => (inr {| ctr_taskId := "new-task" |}, n)
    | KanbanService.postSubtask _ _ => fun n =>
        (inr {| asr_insertIndex := Z.of_nat n |}, Datatypes.S n)
    end.

(** A [JSON.parse] for three texts: a settings file with no servers, a
    configuration with one server, and text that is not JSON. *)
Definition settings_text : string :=
  cat ["{"; dquote; "theme"; dquote; ":"; dquote; "dark"; dquote; "}"].

Definition one_server_text : string :=
  cat ["{"; dquote; "mcpServers"; dquote; ":{"; dquote; "github"; dquote; ":{";
       dquote; "command"; dquote; ":"; dquote; "gh"; dquote; "}}}"].

Definition sample_parse (content : string) : option JsValue :=
  if String.eqb content settings_text
  then Some (JObj {[ "theme" := JStr "dark" ]})
  else if String.eqb content one_server_text
  then Some (JObj {[ "mcpServers" :=
                       JObj {[ "github" := JObj {[ "command" := JStr "gh" ]} ]} ]})
  else None.

(** A stand-in for [JSON.stringify]: the text is named, not spelled out. *)
Definition sample_stringify (v : JsValue) : string := "<finalConfig as JSON>".

Definition sample_join (a b : string) : string := cat [a; "/"; b].

Definition sample_basename (p : string) : string := p.

Definition sample_execConfig : JsObject :=
  {[ "command" := JStr "node"; "args" := JArr [JStr "/opt/kanban/index.js"] ]}.

(** The wizard run in [/proj] at clock reading 1700000000000. *)
Definition sample_wizard : Prog FsCall string :=
  createCursorMcpConfig sample_parse sample_stringify sample_join sample_basename
    1700000000000 "/proj" sample_execConfig "secret".

(** The calls that copy a file. *)
Definition is_copy (c : sigT FsCall) : bool :=
  match projT2 c with
  | fs_copyFile _ _ => true
  | _ => false
  end.

(** ** Vocabulary of the properties *)

(** What the caller supplied for the argument [k], if anything. *)
Definition supplied (args : JsObject) (k : string) : option JsValue :=
  match prop args k with
  | JUndefined => None
  | v => Some v
  end.

(** A run of [if (k !== undefined) o.k = k;] over the arguments named. *)
Definition copy_supplied (fields : list string) (args o : JsObject) : JsObject :=
  foldl (fun o k => set_if_defined k (prop args k) o) o fields.

(** A program all of whose results are text results. *)
Inductive Texts {E : Type → Type} : Prog E ToolResult → Prop :=
| texts_ret (txt : string) : Texts (Ret (text_result txt))
| texts_throw (e : KanbanError) : Texts (Throw e)
| texts_await {X} (c : E X) (k : KanbanError + X → Prog E ToolResult) :
    (∀ r, Texts (k r)) → Texts (Await c k).

(** ** Vocabulary of the further properties *)

(** The tools that write and then read the task back, each with the write
    it makes from its arguments. *)
Definition write_tools : list (Registration * (JsObject → sigT SvcCall)) := [
  (update_task, fun args =>
     existT _ (updateTask (prop args "taskId") (update_task_updates args)));
  (add_subtask, fun args =>
     existT _ (addSubtask (prop args "taskId") (add_subtask_subtask args)));
  (update_subtask_by_position, fun args =>
     existT _ (updateSubtaskByPosition (prop args "taskId") (prop args "index")
                 (update_subtask_updates args)));
  (add_label, fun args =>
     existT _ (addLabel (prop args "taskId") (add_label_label args)));
  (update_label, fun args =>
     existT _ (updateLabel (prop args "taskId") (prop args "labelName")
                 (update_label_updates args)));
  (set_task_due_date, fun args =>
     existT _ (setTaskDueDate (prop args "taskId") (set_task_due_date_dateInfo args)));
  (update_custom_field, fun args =>
     existT _ (updateCustomField (prop args "taskId") (prop args "customFieldId")
                 (object_literal [("value", JObj (update_custom_field_value args))])));
  (add_comment, fun args =>
     existT _ (addComment (prop args "taskId") (add_comment_comment args)));
  (update_comment, fun args =>
     existT _ (updateComment (prop args "taskId") (prop args "commentId")
                 (update_comment_updates args)));
  (add_subtasks, fun args =>
     existT _ (addMultipleSubtasks (prop args "taskId")
                 (object_literal [("subtasks", prop args "subtasks")])))
].

(** The tools that make one call to the service, each with the call it
    makes from its arguments. *)
Definition single_call_tools : list (Registration * (JsObject → sigT SvcCall)) := [
  (get_board, fun _ => existT _ getBoard);
  (create_task, fun args =>
     existT _ (createTask (object_literal
                 [("name", prop args "name"); ("columnId", prop args "columnId");
                  ("description", prop args "description")])));
  (get_tasks, fun args => existT _ (getTasksByColumnId (prop args "columnId")));
  (get_task_details, fun args =>
     existT _ (getTaskDetails (prop args "taskId") (prop args "includePosition")));
  (get_all_tasks, fun _ => existT _ getAllTasks)
].

(** The read of the task that follows the write. *)
Definition read_back (args : JsObject) : SvcCall KanbanTask :=
  getTaskDetails (prop args "taskId") JUndefined.

(** An optional member that is falsy, read as absent. *)
Definition unless_falsy {A} `{Truthy A} (o : option A) : option A :=
  if truthy o then o else None.

(** The part of a task that get-task-details prints: falsy optional
    members and empty collections read as absent, and the members it never
    reads (swimlane, collaborators, custom fields) left out. *)
Definition printed_part (t : KanbanTask) : KanbanTask :=
  {| t_id := t_id t; t_name := t_name t; t_columnId := t_columnId t;
     t_swimlaneId := None;
     t_position := unless_falsy (t_position t);
     t_description := unless_falsy (t_description t);
     t_color := unless_falsy (t_color t);
     t_number := t_number t;
     t_responsibleUserId := unless_falsy (t_responsibleUserId t);
     t_totalSecondsSpent := unless_falsy (t_totalSecondsSpent t);
     t_totalSecondsEstimate := unless_falsy (t_totalSecondsEstimate t);
     t_pointsEstimate := unless_falsy (t_pointsEstimate t);
     t_groupingDate := unless_falsy (t_groupingDate t);
     t_dates := some_nonempty (t_dates t);
     t_subTasks := some_nonempty (t_subTasks t);
     t_labels := some_nonempty (t_labels t);
     t_collaborators := None;
     t_customFields := None;
     t_relations := some_nonempty (t_relations t) |}.

(** A schema type that does not accept a missing value by itself. *)
Definition required (t : ZodType) : bool :=
  match t with
  | z_optional _ | z_union _ => false
  | _ => true
  end.

(** A disk on which creating a directory, copying a file or writing a file
    can be denied. *)
Record Faults := {
  mkdir_fails : bool;
  copy_fails : bool;
  write_fails : bool;
}.

Definition denied : KanbanError := Error "EACCES: permission denied".

Definition faulty_fs (f : Faults) : Answers FsCall (gmap string string) :=
  fun X c =>
    match c in FsCall X return gmap string string → (KanbanError + X) * gmap string string with
    | fs_mkdir _ => fun files =>
        if mkdir_fails f then (inl denied, files) else (inr tt, files)
    | fs_readFile file => fun files =>
        match files !! file with
        | Some data => (inr data, files)
        | None => (inl (Error "ENOENT: no such file or directory"), files)
        end
    | fs_copyFile src dest => fun files =>
        if copy_fails f then (inl denied, files)
        else match files !! src with
             | Some data => (inr tt, <[dest := data]> files)
             | None => (inl (Error "ENOENT: no such file or directory"), files)
             end
    | fs_writeFile file data => fun files =>
        if write_fails f then (inl denied, files) else (inr tt, <[file := data]> files)
    | console_log _ => fun files => (inr tt, files)
    | console_warn _ => fun files => (inr tt, files)
    end.

(** The configuration the wizard writes when there is nothing to merge. *)
Definition fresh_config (execConfig : JsObject) (apiToken : string) : JsObject :=
  {[ "mcpServers" :=
       JObj {[ "kanban-flow" :=
                 JObj (<["env" := JObj {[ "KANBAN_API_TOKEN" := JStr apiToken ]}]>
                         execConfig) ]} ]}.

(** ** The command line (entry module, [main])

    What the functions of the command line await or call: the disk and the
    console of the wizard, [console.error] with the error it is handed, the
    prompt for the API token ([response.apiToken], absent when the prompt
    is cancelled), and [server.connect]. *)
Inductive CliCall : Type → Type :=
| cli_fs {X} (c : FsCall X) : CliCall X
| console_error (msg : string) (error : option KanbanError) : CliCall unit
| prompts_apiToken : CliCall (option string)
| server_connect : CliCall unit.

(** A function of the wizard awaited from the command line. *)
Fixpoint lift_fs {A} (p : Prog FsCall A) : Prog CliCall A :=
  match p with
  | Ret a => Ret a
  | Throw e => Throw e
  | Await c k => Await (cli_fs c) (fun r => lift_fs (k r))
  end.

(** [console.log] and [console.error] do not throw. *)
Definition tell {X} (c : CliCall X) : Prog CliCall unit :=
  Await c (fun _ => Ret tt).

Definition log (msg : string) : Prog CliCall unit := tell (cli_fs (console_log msg)).

(** [process.exit(code)] ends the process, and nothing after it runs: a
    function of the command line returns [Some code] when the process has
    exited and [None] when the function has returned. *)
Definition process_exit (code : Z) : Prog CliCall (option Z) := mret (Some code).

Definition unless_exited (p q : Prog CliCall (option Z)) : Prog CliCall (option Z) :=
  exited ← p;
  match exited with
  | Some code => mret (Some code)
  | None => q
  end.

(** [s.includes(sub)] *)
Definition includes (s sub : string) : bool :=
  match String.index 0 sub s with
  | Some _ => true
  | None => false
  end.

(** [args.includes(flag)] *)
Definition args_includes (args : list string) (flag : string) : bool :=
  existsb (String.eqb flag) args.

Definition help_text : string :=
  cat [nl;
       "ðŸ”§ KanbanFlow MCP Server";
       nl;
       nl;
       "USAGE:";
       nl;
       "  kanbanflow-mcp-server [options]";
       nl;
       nl;
       "OPTIONS:";
       nl;
       "  --setup, --init    Set up MCP configuration for current project";
       nl;
       "  --help, -h         Show this help message";
       nl;
       nl;
       "EXAMPLES:";
       nl;
       "  kanbanflow-mcp-server --setup    # Interactive setup wizard";
       nl;
       "  kanbanflow-mcp-server            # Start MCP server (used by Cursor)";
       nl;
       nl;
       "For more information, visit: https://github.com/your-username/kanbanflow-mcp-server";
       nl;
       "    "].

(** [showHelp] *)
Definition showHelp : Prog CliCall unit := log help_text.

(** [startMcpServer] *)
Definition startMcpServer : Prog CliCall unit :=
  tell (console_error "[MCP Server] Starting Kanban Flow MCP server with stdio transport..." None);;
  tell (console_error "[MCP Server] Connecting server to stdio transport..." None);;
  await server_connect;;
  tell (console_error "[MCP Server] Kanban Flow MCP Server ready for stdio communication" None).

Section CommandLine.

(** The runtime, as in the wizard, with [path.dirname], the path of the
    running module ([fileURLToPath(import.meta.url)]) and [process.cwd()]. *)
Variable JSON_parse : string → option JsValue.
Variable JSON_stringify : JsValue → string.
Variable path_join : string → string → string.
Variable path_basename : string → string.
Variable path_dirname : string → string.
Variable Date_now : Z.
Variable __filename : string.
Variable process_cwd : string.

(** [detectInstallationMethod]: [fileURLToPath] of the module's own URL and
    [path.dirname] of a string do not throw, so the [catch] is not reached. *)
Definition detectInstallationMethod : string :=
  let __dirname := path_dirname __filename in
  if includes __dirname "node_modules" then "global" else "local".

(** [getExecutablePath]: the installation method is not read. *)
Definition getExecutablePath (installMethod : string) : JsObject :=
  object_literal [("command", JStr "node"); ("args", JArr [JStr __filename])].

(** [runSetupWizard] *)
Definition runSetupWizard : Prog CliCall (option Z) :=
  log (cat ["ðŸš€ KanbanFlow MCP Server Setup Wizard"; nl]);;
  let installMethod := detectInstallationMethod in
  log (cat ["ðŸ“¦ Installation method: "; installMethod]);;
  let execConfig := getExecutablePath installMethod in
  response_apiToken ← await prompts_apiToken;
  let cancelled := log "âŒ Setup cancelled";; process_exit 0 in
  match response_apiToken with
  | None => cancelled
  | Some apiToken =>
      if negb (truthy apiToken) then cancelled
      else
        let projectPath := process_cwd in
        try_catch
          (configPath ← lift_fs (createCursorMcpConfig JSON_parse JSON_stringify
                                   path_join path_basename Date_now
                                   projectPath execConfig apiToken);
           log (cat [nl; "âœ… Setup complete!"]);;
           log (cat ["ðŸ“ Configuration: "; configPath]);;
           log "ðŸ”„ Please restart Cursor to use KanbanFlow tools";;
           log (cat [nl; "ðŸ’¡ Your existing MCP servers (if any) are preserved!"]);;
           log "ðŸŽ‰ You can now ask Claude to manage your KanbanFlow board!";;
           mret None)
          (fun error =>
             tell (console_error (cat [nl; "âŒ Setup failed:"]) (Some error));;
             process_exit 1)
  end.

(** [main], on [process.argv.slice(2)] *)
Definition main (args : list string) : Prog CliCall (option Z) :=
  if args_includes args "--setup" || args_includes args "--init"
  then unless_exited runSetupWizard (process_exit 0)
  else if args_includes args "--help" || args_includes args "-h"
  then showHelp;; process_exit 0
  else startMcpServer;; mret None.

(** [main().catch(...)]: the run of the module. *)
Definition entry (args : list string) : Prog CliCall (option Z) :=
  try_catch (main args)
    (fun error =>
       tell (console_error "[MCP Server] Fatal error in main():" (Some error));;
       process_exit 1).

End CommandLine.

(** ** Vocabulary of the properties of the command line *)

(** The terminal and the transport over a disk: what the prompt answers,
    and whether the connection of the server is refused. *)
Definition cli_answers (f : Faults) (prompted : KanbanError + option string)
    (connect_fails : bool) : Answers CliCall (gmap string string) :=
  fun X c =>
    match c in CliCall X return gmap string string → (KanbanError + X) * gmap string string with
    | cli_fs c => faulty_fs f _ c
    | console_error _ _ => fun files => (inr tt, files)
    | prompts_apiToken => fun files => (prompted, files)
    | server_connect => fun files =>
        (if connect_fails then inl (Error "Connection closed") else inr tt, files)
    end.

(** A call of the wizard, as the command line makes it. *)
Definition lifted (c : sigT FsCall) : sigT CliCall :=
  existT (projT1 c) (cli_fs (projT2 c)).

(** The calls that reach the disk. *)
Definition is_disk (c : sigT CliCall) : bool :=
  match projT2 c with
  | cli_fs (fs_mkdir _) | cli_fs (fs_readFile _)
  | cli_fs (fs_copyFile _ _) | cli_fs (fs_writeFile _ _) => true
  | _ => false
  end.

(** The launch command that the setup writes. *)
Definition node_launcher (filename : string) : JsObject :=
  {[ "command" := JStr "node"; "args" := JArr [JStr filename] ]}.

(** A stand-in for [path.dirname]. *)
Definition sample_dirname (p : string) : string := "/opt/kanban".

(** The module run in [/proj] from [/opt/kanban/index.js]. *)
Definition sample_entry (args : list string) : Prog CliCall (option Z) :=
  entry sample_parse sample_stringify sample_join sample_basename sample_dirname
    1700000000000 "/opt/kanban/index.js" "/proj" args.

(** * Properties *)

(** ** Strings *)

Lemma append_assoc (a b c : string) : (a +:+ b) +:+ c = a +:+ (b +:+ c).
Proof.
  induction a as [|x a IH]; [reflexivity|].
  change (String x ((a +:+ b) +:+ c) = String x (a +:+ (b +:+ c))).
  by rewrite IH.
Qed.

Lemma append_nil_r (a : string) : a +:+ "" = a.
Proof.
  induction a as [|x a IH]; [reflexivity|].
  change (String x (a +:+ "") = String x a). by rewrite IH.
Qed.

(** A template literal whose first piece is itself made of three. *)
Lemma cat_prefix (a v b m : string) : cat [cat [a; v; b]; m] = cat [a; v; b; m].
Proof.
  change ((a +:+ (v +:+ b)) +:+ m = a +:+ (v +:+ (b +:+ m))).
  by rewrite !append_assoc.
Qed.

(** ** Running programs *)

Section RunFacts.

Context {E : Type → Type} {S : Type} (h : Answers E S).

Lemma run_await {X} (c : E X) (s : S) :
  run h (await c) s =
  {| result := (h X c s).1; final := (h X c s).2; calls := [existT X c] |}.
Proof.
  unfold await. simpl. destruct (h X c s) as [[e | x] s']; reflexivity.
Qed.

Lemma run_bind {A B} (p : Prog E A) (f : A → Prog E B) (s : S) :
  run h (p ≫= f) s =
  match result (run h p s) with
  | inl e => {| result := inl e; final := final (run h p s);
                calls := calls (run h p s) |}
  | inr a =>
      let o := run h (f a) (final (run h p s)) in
      {| result := result o; final := final o;
         calls := calls (run h p s) ++ calls o |}
  end.
Proof.
  revert s. induction p as [a | e | X c k IH]; intros s.
  - simpl. unfold mbind, prog_bind. simpl. destruct (run h (f a) s). reflexivity.
  - reflexivity.
  - unfold mbind, prog_bind in *. simpl.
    destruct (h X c s) as [r s']. simpl. rewrite IH.
    destruct (result (run h (k r) s')); reflexivity.
Qed.

Lemma run_try_catch {A} (p : Prog E A) (k : KanbanError → Prog E A) (s : S) :
  run h (try_catch p k) s =
  match result (run h p s) with
  | inr a => {| result := inr a; final := final (run h p s);
                calls := calls (run h p s) |}
  | inl e =>
      let o := run h (k e) (final (run h p s)) in
      {| result := result o; final := final o;
         calls := calls (run h p s) ++ calls o |}
  end.
Proof.
  revert s. induction p as [a | e | X c q IH]; intros s.
  - reflexivity.
  - simpl. destruct (run h (k e) s). reflexivity.
  - simpl. destruct (h X c s) as [r s']. simpl. rewrite IH.
    destruct (result (run h (q r) s')); reflexivity.
Qed.

End RunFacts.

(** A handler returns what its [try] block returns, and turns what the
    block throws into the text of its [catch]; it makes no call of its own. *)
Lemma run_reg_handler {S} (h : Answers SvcCall S) (r : Registration)
    (args : JsObject) (s : S) :
  run h (reg_handler r args) s =
  {| result := match result (run h (reg_try r args) s) with
               | inr res => inr res
               | inl e => inr (text_result (cat [reg_failure r; message e]))
               end;
     final := final (run h (reg_try r args) s);
     calls := calls (run h (reg_try r args) s) |}.
Proof.
  unfold reg_handler. rewrite run_try_catch.
  destruct (result (run h (reg_try r args) s)); simpl; [|reflexivity].
  by rewrite app_nil_r.
Qed.

(** ** C1: errors at the tool boundary *)

Lemma texts_bind {E A} (p : Prog E A) (f : A → Prog E ToolResult) :
  (∀ a, Texts (f a)) → Texts (p ≫= f).
Proof.
  intros Hf. induction p as [a | e | X c k IH].
  - apply Hf.
  - apply texts_throw.
  - apply texts_await. intros r. apply IH.
Qed.

Lemma texts_try_catch {E} (p : Prog E ToolResult) (k : KanbanError → Prog E ToolResult) :
  Texts p → (∀ e, Texts (k e)) → Texts (try_catch p k).
Proof.
  intros Hp Hk. induction Hp as [txt | e | X c q _ IH].
  - apply texts_ret.
  - apply Hk.
  - apply texts_await. intros r. apply IH.
Qed.

Lemma texts_run {E S} (h : Answers E S) (p : Prog E ToolResult) (s : S) (res : ToolResult) :
  Texts p → result (run h p s) = inr res → ∃ txt, res = text_result txt.
Proof.
  intros Hp. revert s. induction Hp as [txt | e | X c k _ IH]; intros s.
  - intros [= <-]. by exists txt.
  - discriminate.
  - simpl. destruct (h X c s) as [r s']. simpl. apply IH.
Qed.

(** Every [try] block of the registry ends in a text result. *)
Lemma texts_reg_try (r : Registration) (args : JsObject) :
  r ∈ server_tools → Texts (reg_try r args).
Proof.
  intros Hr. unfold server_tools in Hr.
  repeat (apply elem_of_cons in Hr as [-> | Hr]);
    try (by apply elem_of_nil in Hr);
    cbn [reg_try get_board create_task get_tasks get_task_details update_task
         get_all_tasks add_subtask update_subtask_by_position add_label
         update_label set_task_due_date update_custom_field add_comment
         update_comment add_subtasks create_task_with_subtasks];
    unfold get_board_try, create_task_try, get_tasks_try, get_task_details_try,
      update_task_try, get_all_tasks_try, add_subtask_try,
      update_subtask_by_position_try, add_label_try, update_label_try,
      set_task_due_date_try, update_custom_field_try, add_comment_try,
      update_comment_try, add_subtasks_try, create_task_with_subtasks_try;
    repeat (apply texts_bind; intros ?); apply texts_ret.
Qed.

(** C1, as the code has it. For every registered tool, the text of its
    [catch] is "Failed to <verb>: " followed by the message of the error;
    whatever the service answers, the handler returns a text result and
    never throws; and when its [try] block throws an error (a call the service
    rejected, or an error of the handler's own), the result is the text
    "Failed to <verb>: <message>" and no further call is made. Arguments
    that the schema refuses are not part of this: the handler is not run on
    them. *)
Theorem handler_errors_become_text (r : Registration) :
  r ∈ server_tools →
  ∃ verb : string,
    reg_failure r = cat ["Failed to "; verb; ": "] ∧
    ∀ (S : Type) (h : Answers SvcCall S) (s : S) (args : JsObject),
      (∃ txt, result (run h (reg_handler r args) s) = inr (text_result txt)) ∧
      (∀ e, result (run h (reg_try r args) s) = inl e →
         result (run h (reg_handler r args) s)
         = inr (text_result (cat ["Failed to "; verb; ": "; message e]))
         ∧ calls (run h (reg_handler r args) s) = calls (run h (reg_try r args) s)).
Proof.
  intros Hr.
  assert (∃ verb, reg_failure r = cat ["Failed to "; verb; ": "]) as [verb Hverb].
  { unfold server_tools in Hr.
    repeat (apply elem_of_cons in Hr as [-> | Hr]);
      [ exists "get board" | exists "create task" | exists "get tasks"
      | exists "get task details" | exists "update task" | exists "get all tasks"
      | exists "add subtask" | exists "update subtask" | exists "add label"
      | exists "update label" | exists "set due date" | exists "update custom field"
      | exists "add comment" | exists "update comment" | exists "add subtasks"
      | exists "create task with subtasks" | by apply elem_of_nil in Hr ];
      reflexivity. }
  exists verb. split; [exact Hverb|].
  intros S h s args. rewrite run_reg_handler. simpl. split.
  - destruct (result (run h (reg_try r args) s)) as [e | res] eqn:Hres; [eauto|].
    destruct (texts_run h _ s res (texts_reg_try r args Hr) Hres) as [txt ->]. eauto.
  - intros e He. rewrite He. split; [|reflexivity].
    rewrite Hverb. by rewrite cat_prefix.
Qed.

(** The add-label tool against a service that rejects every call. *)
Lemma handler_errors_become_text_add_label :
  ∃ verb : string,
    reg_failure add_label = cat ["Failed to "; verb; ": "] ∧
    ∀ (S : Type) (h : Answers SvcCall S) (s : S) (args : JsObject),
      (∃ txt, result (run h (reg_handler add_label args) s) = inr (text_result txt)) ∧
      (∀ e, result (run h (reg_try add_label args) s) = inl e →
         result (run h (reg_handler add_label args) s)
         = inr (text_result (cat ["Failed to "; verb; ": "; message e]))
         ∧ calls (run h (reg_handler add_label args) s)
           = calls (run h (reg_try add_label args) s)).
Proof.
  apply (handler_errors_become_text add_label).
  unfold server_tools. do 8 apply list_elem_of_further. apply list_elem_of_here.
Defined.

(** C1, as stated, fails on arguments the schema refuses: update-task
    called with the color "teal" is turned down by the dispatch, the handler
    and its [catch] are not run, and so no result "Failed to update task:
    ..." comes from the tool. *)
Lemma schema_rejection_bypasses_the_catch :
  callTool "update-task"
    (JObj (object_literal [("taskId", JStr "t1"); ("color", JStr "teal")]))
  = InvalidArguments
  ∧ ¬ ∃ p, callTool "update-task"
             (JObj (object_literal [("taskId", JStr "t1"); ("color", JStr "teal")]))
           = Handled p.
Proof.
  assert (callTool "update-task"
            (JObj (object_literal [("taskId", JStr "t1"); ("color", JStr "teal")]))
          = InvalidArguments) as H by (vm_compute; reflexivity).
  split; [exact H|]. intros [p Hp]. rewrite H in Hp. discriminate.
Qed.

(** A failure of the remote layer during add-label. *)
Example add_label_remote_failure :
  result (run (rejecting (Error "Network Error"))
            (reg_handler add_label
               {[ "taskId" := JStr "t1"; "name" := JStr "bug" ]}) tt)
  = inr (text_result "Failed to add label: Network Error").
Proof. vm_compute. reflexivity. Qed.

(** An error of the handler's own: add-comment run on a text that is not a
    string (which the schema would have refused). *)
Example add_comment_own_error :
  result (run (accepting (sample_task None))
            (reg_handler add_comment
               {[ "taskId" := JStr "t1"; "text" := JNum 7 ]}) tt)
  = inr (text_result "Failed to add comment: text.substring is not a function").
Proof. vm_compute. reflexivity. Qed.

(** ** C2: sparse update payloads *)

Lemma lookup_set_if_defined (k : string) (v : JsValue) (o : JsObject) (j : string) :
  set_if_defined k v o !! j
  = if decide (k = j)
    then match v with JUndefined => o !! j | _ => Some v end
    else o !! j.
Proof.
  unfold set_if_defined, set_prop.
  destruct v; case_decide; subst; simplify_map_eq; reflexivity.
Qed.

Lemma lookup_copy_supplied (fields : list string) (args o : JsObject) (k : string) :
  copy_supplied fields args o !! k
  = if decide (k ∈ fields)
    then match supplied args k with Some v => Some v | None => o !! k end
    else o !! k.
Proof.
  revert o. induction fields as [|f fields IH]; intros o.
  - simpl. destruct (decide (k ∈ @nil string)) as [H | H];
      [by apply elem_of_nil in H | reflexivity].
  - change (copy_supplied (f :: fields) args o)
      with (copy_supplied fields args (set_if_defined f (prop args f) o)).
    rewrite IH, lookup_set_if_defined. unfold supplied.
    destruct (decide (f = k)) as [-> | Hne].
    + rewrite (decide_True (P := k ∈ k :: fields)) by apply list_elem_of_here.
      destruct (decide (k ∈ fields)); destruct (prop args k); reflexivity.
    + destruct (decide (k ∈ fields)) as [Hin | Hin].
      * rewrite decide_True by (by apply list_elem_of_further). reflexivity.
      * rewrite decide_False; [reflexivity|].
        intros [? | ?]%elem_of_cons; congruence.
Qed.

Lemma head_calls_await_bind {E S X A} (h : Answers E S) (c : E X)
    (f : X → Prog E A) (s : S) :
  head (calls (run h (await c ≫= f) s)) = Some (existT X c).
Proof.
  rewrite run_bind, run_await. simpl. destruct ((h X c s).1); reflexivity.
Qed.

(** C2. For each of update-task, update-subtask-by-position, update-label
    and update-comment, and for every object of arguments: the first call
    the handler makes is the update call of the service, and the payload it
    passes holds, under every key, the value the caller supplied for that
    optional argument and nothing otherwise (no key for an argument that was
    left out, no key outside the optional arguments). *)
Theorem update_payload_is_exactly_the_supplied_fields
    (S : Type) (h : Answers SvcCall S) (s : S) (args : JsObject) :
  (∃ updates,
     head (calls (run h (reg_handler update_task args) s))
     = Some (existT _ (updateTask (prop args "taskId") updates))
     ∧ ∀ k, updates !! k
            = if decide (k ∈ ["name"; "columnId"; "description"; "color"; "position";
                              "responsibleUserId"; "totalSecondsEstimate";
                              "pointsEstimate"])
              then supplied args k else None)
  ∧ (∃ updates,
       head (calls (run h (reg_handler update_subtask_by_position args) s))
       = Some (existT _ (updateSubtaskByPosition (prop args "taskId")
                           (prop args "index") updates))
       ∧ ∀ k, updates !! k
              = if decide (k ∈ ["name"; "finished"; "userId"; "dueDateTimestamp";
                                "dueDateTimestampLocal"])
                then supplied args k else None)
  ∧ (∃ updates,
       head (calls (run h (reg_handler update_label args) s))
       = Some (existT _ (updateLabel (prop args "taskId")
                           (prop args "labelName") updates))
       ∧ ∀ k, updates !! k
              = if decide (k ∈ ["name"; "pinned"]) then supplied args k else None)
  ∧ (∃ updates,
       head (calls (run h (reg_handler update_comment args) s))
       = Some (existT _ (updateComment (prop args "taskId")
                           (prop args "commentId") updates))
       ∧ ∀ k, updates !! k
              = if decide (k ∈ ["text"; "authorUserId"; "createdTimestamp";
                                "updatedTimestamp"])
                then supplied args k else None).
Proof.
  repeat split.
  - exists (update_task_updates args). split.
    + rewrite run_reg_handler. apply head_calls_await_bind.
    + intros k.
      change (update_task_updates args)
        with (copy_supplied ["name"; "columnId"; "description"; "color"; "position";
                             "responsibleUserId"; "totalSecondsEstimate";
                             "pointsEstimate"] args ∅).
      rewrite lookup_copy_supplied, lookup_empty.
      case_decide; [destruct (supplied args k)|]; reflexivity.
  - exists (update_subtask_updates args). split.
    + rewrite run_reg_handler. apply head_calls_await_bind.
    + intros k.
      change (update_subtask_updates args)
        with (copy_supplied ["name"; "finished"; "userId"; "dueDateTimestamp";
                             "dueDateTimestampLocal"] args ∅).
      rewrite lookup_copy_supplied, lookup_empty.
      case_decide; [destruct (supplied args k)|]; reflexivity.
  - exists (update_label_updates args). split.
    + rewrite run_reg_handler. apply head_calls_await_bind.
    + intros k.
      change (update_label_updates args)
        with (copy_supplied ["name"; "pinned"] args ∅).
      rewrite lookup_copy_supplied, lookup_empty.
      case_decide; [destruct (supplied args k)|]; reflexivity.
  - exists (update_comment_updates args). split.
    + rewrite run_reg_handler. apply head_calls_await_bind.
    + intros k.
      change (update_comment_updates args)
        with (copy_supplied ["text"; "authorUserId"; "createdTimestamp";
                             "updatedTimestamp"] args ∅).
      rewrite lookup_copy_supplied, lookup_empty.
      case_decide; [destruct (supplied args k)|]; reflexivity.
Qed.

(** update-task with a name and a position: the payload has these two keys. *)
Example update_task_payload_sample :
  update_task_updates
    {[ "taskId" := JStr "t1"; "name" := JStr "Ship it"; "position" := JNum 0 ]}
  = {[ "name" := JStr "Ship it"; "position" := JNum 0 ]}.
Proof. vm_compute. reflexivity. Qed.

(** ** C6 and C8: what the schemas accept *)

Lemma parse_members_refused (parse : ZodType → JsValue → option JsValue)
    (data : JsObject) (shape : list (string * ZodType)) (k : string) (tk : ZodType) :
  (k, tk) ∈ shape → parse tk (prop data k) = None →
  parse_members parse data shape = None.
Proof.
  induction shape as [|[k' tk'] shape IH]; intros Hin Hnone.
  - by apply elem_of_nil in Hin.
  - apply elem_of_cons in Hin as [Heq | Hin]; simpl.
    + injection Heq as <- <-. by rewrite Hnone.
    + rewrite (IH Hin Hnone). by destruct (parse tk' (prop data k')).
Qed.

(** A call whose arguments have a member the schema refuses does not reach
    the handler, so it makes no call to the service. *)
Lemma callTool_refused (r : Registration) (arguments : JsObject)
    (k : string) (tk : ZodType) :
  find (fun r' => String.eqb (reg_name r') (reg_name r)) server_tools = Some r →
  (k, tk) ∈ reg_schema r → zod_parse tk (prop arguments k) = None →
  callTool (reg_name r) (JObj arguments) = InvalidArguments
  ∧ ∀ (S : Type) (h : Answers SvcCall S) (s : S),
      service_calls h s (callTool (reg_name r) (JObj arguments)) = [].
Proof.
  intros Hfind Hin Hnone.
  assert (callTool (reg_name r) (JObj arguments) = InvalidArguments) as H.
  { unfold callTool. rewrite Hfind. simpl.
    by rewrite (parse_members_refused _ _ _ _ _ Hin Hnone). }
  split; [exact H|]. intros S h s. by rewrite H.
Qed.

Lemma enum_refuses (values : list string) (v : JsValue) :
  v ≠ JUndefined → (∀ c, c ∈ values → v ≠ JStr c) →
  zod_parse (z_optional (z_enum values)) v = None.
Proof.
  intros Hdef Hout. destruct v as [| | | |s| |]; try reflexivity; [done|].
  simpl. destruct (existsb (String.eqb s) values) eqn:Hex; [|reflexivity].
  apply existsb_exists in Hex as (c & Hc & Heq).
  apply String.eqb_eq in Heq as ->.
  exfalso. apply (Hout c); [by apply list_elem_of_In | reflexivity].
Qed.

(** C6. For update-task and create-task-with-subtasks: a call that supplies
    a color which is not one of the ten names is refused by the schema, the
    handler is not run and no call reaches the service; each of the ten
    names passes the color member of both schemas, and a call that supplies
    one (with the required arguments) reaches the handler. *)
Theorem color_is_checked_against_the_enumeration :
  (∀ (r : Registration) (arguments : JsObject),
     r = update_task ∨ r = create_task_with_subtasks →
     prop arguments "color" ≠ JUndefined →
     (∀ c, c ∈ colors → prop arguments "color" ≠ JStr c) →
     callTool (reg_name r) (JObj arguments) = InvalidArguments
     ∧ ∀ (S : Type) (h : Answers SvcCall S) (s : S),
         service_calls h s (callTool (reg_name r) (JObj arguments)) = [])
  ∧ (∀ c, c ∈ colors →
       zod_parse (z_optional (z_enum colors)) (JStr c) = Some (JStr c)
       ∧ (∀ taskId,
            callTool "update-task"
              (JObj {[ "taskId" := JStr taskId; "color" := JStr c ]})
            = Handled (reg_handler update_task
                         {[ "taskId" := JStr taskId; "color" := JStr c ]}))
       ∧ (∀ name columnId,
            callTool "create-task-with-subtasks"
              (JObj {[ "name" := JStr name; "columnId" := JStr columnId;
                       "color" := JStr c; "subtasks" := JArr [] ]})
            = Handled (reg_handler create_task_with_subtasks
                         {[ "name" := JStr name; "columnId" := JStr columnId;
                            "color" := JStr c; "subtasks" := JArr [] ]}))).
Proof.
  split.
  - intros r arguments Hr Hdef Hout.
    destruct Hr as [-> | ->];
      apply (callTool_refused _ arguments "color" (z_optional (z_enum colors)));
      try reflexivity; try (by apply enum_refuses).
    + do 4 apply list_elem_of_further. apply list_elem_of_here.
    + do 3 apply list_elem_of_further. apply list_elem_of_here.
  - intros c Hc. unfold colors in Hc.
    repeat (apply elem_of_cons in Hc as [-> | Hc]);
      try (by apply elem_of_nil in Hc);
      (split; [reflexivity | split; intros; vm_compute; reflexivity]).
Qed.

(** The call of the specification: update-task with the color "teal". *)
Lemma color_teal_is_refused :
  callTool "update-task" (JObj {[ "taskId" := JStr "t1"; "color" := JStr "teal" ]})
  = InvalidArguments
  ∧ ∀ (S : Type) (h : Answers SvcCall S) (s : S),
      service_calls h s
        (callTool "update-task"
           (JObj {[ "taskId" := JStr "t1"; "color" := JStr "teal" ]})) = [].
Proof.
  apply (proj1 color_is_checked_against_the_enumeration update_task
           {[ "taskId" := JStr "t1"; "color" := JStr "teal" ]}).
  - left. reflexivity.
  - vm_compute. discriminate.
  - intros c Hc. unfold colors in Hc.
    repeat (apply elem_of_cons in Hc as [-> | Hc]);
      try (by apply elem_of_nil in Hc); vm_compute; discriminate.
Defined.

(** C8, as the code has it. The position member of update-task and of
    create-task-with-subtasks accepts every string and every number (so
    "top", "bottom" and 0 in particular) and an omitted position, and
    refuses every other value (null, a boolean, an array, an object); a
    call that supplies a value of the refused kinds does not reach the
    handler, and a call that supplies a string or a number does. *)
Theorem position_accepts_strings_and_numbers :
  (∀ r, r = update_task ∨ r = create_task_with_subtasks →
        ("position", z_optional (z_union [z_string; z_number])) ∈ reg_schema r)
  ∧ (∀ v, zod_parse (z_optional (z_union [z_string; z_number])) v
          = match v with
            | JUndefined | JStr _ | JNum _ => Some v
            | JNull | JBool _ | JArr _ | JObj _ => None
            end)
  ∧ (∀ (r : Registration) (arguments : JsObject),
       r = update_task ∨ r = create_task_with_subtasks →
       match prop arguments "position" with
       | JNull | JBool _ | JArr _ | JObj _ => True
       | _ => False
       end →
       callTool (reg_name r) (JObj arguments) = InvalidArguments)
  ∧ (∀ (taskId : string) (v : JsValue),
       match v with JStr _ | JNum _ => True | _ => False end →
       callTool "update-task" (JObj {[ "taskId" := JStr taskId; "position" := v ]})
       = Handled (reg_handler update_task
                    {[ "taskId" := JStr taskId; "position" := v ]}))
  ∧ (∀ (name columnId : string) (v : JsValue),
       match v with JStr _ | JNum _ => True | _ => False end →
       callTool "create-task-with-subtasks"
         (JObj {[ "name" := JStr name; "columnId" := JStr columnId;
                  "position" := v; "subtasks" := JArr [] ]})
       = Handled (reg_handler create_task_with_subtasks
                    {[ "name" := JStr name; "columnId" := JStr columnId;
                       "position" := v; "subtasks" := JArr [] ]})).
Proof.
  split; [|split; [|split; [|split]]].
  - intros r [-> | ->].
    + do 5 apply list_elem_of_further. apply list_elem_of_here.
    + do 4 apply list_elem_of_further. apply list_elem_of_here.
  - intros v. destruct v; reflexivity.
  - intros r arguments Hr Hv.
    destruct Hr as [-> | ->];
      apply (callTool_refused _ arguments "position"
               (z_optional (z_union [z_string; z_number])));
      try reflexivity;
      try (destruct (prop arguments "position"); done).
    + do 5 apply list_elem_of_further. apply list_elem_of_here.
    + do 4 apply list_elem_of_further. apply list_elem_of_here.
  - intros taskId v Hv. destruct v; try done; vm_compute; reflexivity.
  - intros name columnId v Hv. destruct v; try done; vm_compute; reflexivity.
Qed.

(** The positions of the specification, "top" and 0, reach the handler,
    and a boolean position does not. *)
Lemma position_top_and_zero_are_accepted :
  callTool "update-task" (JObj {[ "taskId" := JStr "t1"; "position" := JStr "top" ]})
  = Handled (reg_handler update_task
               {[ "taskId" := JStr "t1"; "position" := JStr "top" ]})
  ∧ callTool "update-task" (JObj {[ "taskId" := JStr "t1"; "position" := JNum 0 ]})
    = Handled (reg_handler update_task
                 {[ "taskId" := JStr "t1"; "position" := JNum 0 ]})
  ∧ callTool "update-task" (JObj {[ "taskId" := JStr "t1"; "position" := JBool true ]})
    = InvalidArguments.
Proof.
  destruct position_accepts_strings_and_numbers as (_ & _ & Hno & Hyes & _).
  split; [|split].
  - apply (Hyes "t1" (JStr "top")). exact I.
  - apply (Hyes "t1" (JNum 0)). exact I.
  - apply (Hno update_task {[ "taskId" := JStr "t1"; "position" := JBool true ]}).
    + left. reflexivity.
    + vm_compute. exact I.
Defined.

(** C8, as stated, fails: the position "middle", which is neither a number
    nor one of the tokens "top" and "bottom", passes validation, reaches
    the handler and is handed to the service in the update; so does the
    negative number -1. *)
Lemma position_middle_is_accepted :
  callTool "update-task" (JObj {[ "taskId" := JStr "t1"; "position" := JStr "middle" ]})
  = Handled (reg_handler update_task
               {[ "taskId" := JStr "t1"; "position" := JStr "middle" ]})
  ∧ head (calls (run (accepting (sample_task None))
                   (reg_handler update_task
                      {[ "taskId" := JStr "t1"; "position" := JStr "middle" ]}) tt))
    = Some (existT _ (updateTask (JStr "t1") {[ "position" := JStr "middle" ]}))
  ∧ callTool "update-task" (JObj {[ "taskId" := JStr "t1"; "position" := JNum (-1) ]})
    = Handled (reg_handler update_task
                 {[ "taskId" := JStr "t1"; "position" := JNum (-1) ]}).
Proof.
  split; [|split]; vm_compute; reflexivity.
Qed.

(** ** C10: the Position line *)

Lemma cat_cons (x : string) (l : list string) : cat (x :: l) = x +:+ cat l.
Proof.
  destruct l as [|y l]; [|reflexivity].
  change (x = x +:+ ""). by rewrite append_nil_r.
Qed.

Lemma cat_app (l1 l2 : list string) : cat (l1 ++ l2) = cat l1 +:+ cat l2.
Proof.
  induction l1 as [|x l1 IH]; [reflexivity|].
  change (cat (x :: (l1 ++ l2)) = cat (x :: l1) +:+ cat l2).
  by rewrite !cat_cons, IH, append_assoc.
Qed.

(** A template cut after its first [n] pieces. *)
Lemma cat_cut (n : nat) (l : list string) :
  cat l = cat (take n l) +:+ cat (drop n l).
Proof. by rewrite <- cat_app, take_drop. Qed.

(** C10. In the narratives of get-task-details and update-task, a task
    whose position is 0 is printed exactly as the same task with no
    position: the Position line is left out. This is so for every
    arguments object, so also when includePosition is true. The line
    "- Position: <p>" is printed, between the same two parts of the text,
    exactly for a position p other than 0. *)
Theorem position_zero_is_printed_as_absent (task : KanbanTask) :
  formattedDetails (with_position (Some 0) task)
  = formattedDetails (with_position None task)
  ∧ update_task_response (with_position (Some 0) task)
    = update_task_response (with_position None task)
  ∧ (∃ before after : string,
       formattedDetails (with_position None task) = before +:+ after
       ∧ ∀ p, p ≠ 0 →
           formattedDetails (with_position (Some p) task)
           = before +:+ (cat ["- Position: "; pretty p; nl] +:+ after))
  ∧ (∃ before after : string,
       update_task_response (with_position None task) = before +:+ after
       ∧ ∀ p, p ≠ 0 →
           update_task_response (with_position (Some p) task)
           = before +:+ (cat ["- Position: "; pretty p; nl] +:+ after))
  ∧ (∀ (S : Type) (h : Answers SvcCall S) (s s' : S) (args : JsObject),
       h _ (getTaskDetails (prop args "taskId") (prop args "includePosition")) s
       = (inr (with_position (Some 0) task), s') →
       result (run h (reg_handler get_task_details args) s)
       = inr (text_result (formattedDetails (with_position None task))))
  ∧ (∀ (S : Type) (h : Answers SvcCall S) (s s1 s2 : S) (args : JsObject),
       h _ (updateTask (prop args "taskId") (update_task_updates args)) s
       = (inr tt, s1) →
       h _ (getTaskDetails (prop args "taskId") JUndefined) s1
       = (inr (with_position (Some 0) task), s2) →
       result (run h (reg_handler update_task args) s)
       = inr (text_result (update_task_response (with_position None task)))).
Proof.
  assert (formattedDetails (with_position (Some 0) task)
          = formattedDetails (with_position None task)) as Hdetails
    by reflexivity.
  assert (update_task_response (with_position (Some 0) task)
          = update_task_response (with_position None task)) as Hresponse
    by reflexivity.
  split; [exact Hdetails|]. split; [exact Hresponse|].
  split; [|split; [|split]].
  - eexists _, _. split.
    + unfold formattedDetails. rewrite (cat_cut 13). cbn [take drop firstn skipn].
      rewrite (cat_cons (when_ _ _)). reflexivity.
    + intros p Hp. unfold formattedDetails.
      rewrite (cat_cut 13). cbn [take drop firstn skipn].
      rewrite (cat_cons (when_ _ _)).
      cbn [with_position t_position truthy option_truthy Z_truthy].
      change (truthy p) with (negb (p =? 0)).
      apply Z.eqb_neq in Hp. rewrite Hp. reflexivity.
  - eexists _, _. split.
    + unfold update_task_response. rewrite (cat_cut 13). cbn [take drop firstn skipn].
      rewrite (cat_cons (when_ _ _)). reflexivity.
    + intros p Hp. unfold update_task_response.
      rewrite (cat_cut 13). cbn [take drop firstn skipn].
      rewrite (cat_cons (when_ _ _)).
      cbn [with_position t_position truthy option_truthy Z_truthy].
      change (truthy p) with (negb (p =? 0)).
      apply Z.eqb_neq in Hp. rewrite Hp. reflexivity.
  - intros S h s s' args Hh. rewrite run_reg_handler.
    cbn [result reg_try get_task_details]. unfold get_task_details_try.
    rewrite run_bind, run_await, Hh. reflexivity.
  - intros S h s s1 s2 args Hu Hg. rewrite run_reg_handler.
    cbn [result reg_try update_task]. unfold update_task_try.
    rewrite run_bind, run_await, Hu. cbn [result final fst snd].
    rewrite run_bind, run_await, Hg. reflexivity.
Qed.

(** get-task-details on a task at position 0, with includePosition set. *)
Lemma position_zero_sample :
  result (run (accepting (sample_task (Some 0)))
            (reg_handler get_task_details
               {[ "taskId" := JStr "t1"; "includePosition" := JBool true ]}) tt)
  = inr (text_result (formattedDetails (sample_task None))).
Proof.
  destruct (position_zero_is_printed_as_absent (sample_task None))
    as (_ & _ & _ & _ & H & _).
  apply (H unit (accepting (sample_task (Some 0))) tt tt). reflexivity.
Defined.

(** The narrative of update-task for the sample task at position 3. *)
Example update_task_response_sample :
  update_task_response (sample_task (Some 3))
  = cat ["Successfully updated task!"; nl;
         "- ID: t1"; nl;
         "- Name: Write report"; nl;
         "- Column ID: col-1"; nl;
         "- Description: Quarterly numbers"; nl;
         "- Color: green"; nl;
         "- Position: 3"; nl;
         "- Grouping Date: 2024-05-01"; nl].
Proof. vm_compute. reflexivity. Qed.

(** ** C3 and C4: updates addressed by position and by name *)

(** C3. Against the remote client as the specification describes it:
    when the task that the remote board returns has [count] subtasks and
    the index is [count] or more, updateSubtaskByPosition throws the
    out-of-range error, which names the index and the count; the only call
    it has made is the read of the task, so nothing was written and the
    board is as the read left it. The tool (entry module) turns a rejection
    of updateSubtaskByPosition into the text "Failed to update subtask:
    <message>" and makes no other call. *)
Theorem out_of_range_index_fails_without_a_write :
  (∀ (S : Type) (h : Answers KanbanService.ApiCall S) (s s' : S)
     (taskId : JsValue) (n : Z) (updates : JsObject) (task : KanbanTask),
     h _ (KanbanService.fetchTask taskId) s = (inr task, s') →
     Z.of_nat (length (default [] (t_subTasks task))) ≤ n →
     let o := run h (KanbanService.updateSubtaskByPosition taskId (JNum n) updates) s in
     result o = inl (KanbanService.index_out_of_range (JNum n)
                       (length (default [] (t_subTasks task))))
     ∧ calls o = [existT _ (KanbanService.fetchTask taskId)]
     ∧ Forall (fun c => KanbanService.is_write c = false) (calls o)
     ∧ final o = s')
  ∧ (∀ (S : Type) (h : Answers SvcCall S) (s s' : S) (args : JsObject)
       (e : KanbanError),
       h _ (updateSubtaskByPosition (prop args "taskId") (prop args "index")
              (update_subtask_updates args)) s = (inl e, s') →
       let o := run h (reg_handler update_subtask_by_position args) s in
       result o = inr (text_result (cat ["Failed to update subtask: "; message e]))
       ∧ calls o = [existT _ (updateSubtaskByPosition (prop args "taskId")
                                (prop args "index") (update_subtask_updates args))]
       ∧ final o = s').
Proof.
  split.
  - intros S h s s' taskId n updates task Hfetch Hn o.
    assert (KanbanService.position_in (JNum n) (length (default [] (t_subTasks task)))
            = None) as Hpos.
    { unfold KanbanService.position_in.
      destruct (0 <=? n); [|reflexivity].
      destruct (n <? Z.of_nat (length (default [] (t_subTasks task)))) eqn:Hlt;
        [|reflexivity].
      apply Z.ltb_lt in Hlt. lia. }
    assert (run h (KanbanService.updateSubtaskByPosition taskId (JNum n) updates) s
            = {| result := inl (KanbanService.index_out_of_range (JNum n)
                                  (length (default [] (t_subTasks task))));
                 final := s';
                 calls := [existT _ (KanbanService.fetchTask taskId)] |}) as Ho.
    { unfold KanbanService.updateSubtaskByPosition.
      rewrite run_bind, run_await, Hfetch. cbn [result final calls fst snd].
      rewrite Hpos. reflexivity. }
    subst o. rewrite Ho. cbn [result final calls].
    repeat split. by repeat constructor.
  - intros S h s s' args e Hh o. subst o. rewrite run_reg_handler.
    cbn [result final calls reg_try reg_failure update_subtask_by_position].
    unfold update_subtask_by_position_try.
    rewrite run_bind, run_await, Hh. done.
Qed.

(** The task of the sample has two subtasks; index 2 is out of range. *)
Lemma out_of_range_index_sample :
  let o := run (remote (sample_task None))
             (KanbanService.updateSubtaskByPosition (JStr "t1") (JNum 2)
                {[ "finished" := JBool true ]}) 0%nat in
  result o = inl (KanbanService.index_out_of_range (JNum 2) 2)
  ∧ calls o = [existT _ (KanbanService.fetchTask (JStr "t1"))]
  ∧ Forall (fun c => KanbanService.is_write c = false) (calls o)
  ∧ final o = 0%nat.
Proof.
  apply (proj1 out_of_range_index_fails_without_a_write nat
           (remote (sample_task None)) 0%nat 0%nat (JStr "t1") 2
           {[ "finished" := JBool true ]} (sample_task None)).
  - reflexivity.
  - simpl. lia.
Defined.

Example index_out_of_range_message :
  message (KanbanService.index_out_of_range (JNum 2) 2)
  = "Subtask index 2 is out of range (task has 2 subtasks)".
Proof. vm_compute. reflexivity. Qed.

Lemma named_spec (labelName : string) (label : JsObject) :
  KanbanService.named (JStr labelName) label = true
  ↔ prop label "name" = JStr labelName.
Proof.
  unfold KanbanService.named. destruct (prop label "name"); try done.
  rewrite String.eqb_eq. split; [by intros -> | by intros [= ->]].
Qed.

(** C4. Against the remote client as the specification describes it:
    when no label of the task has the given name (compared as strings,
    so case-sensitively), updateLabel throws the not-found error after
    the read of the task alone, with no write; when labels of that name
    exist, the array written back is the task's label array with the
    update applied to the first of them and every other label, later
    labels of the same name included, as it was. The tool (entry module)
    turns a rejection of updateLabel into the text "Failed to update
    label: <message>" and makes no other call. *)
Theorem label_update_addresses_the_first_match :
  (∀ (S : Type) (h : Answers KanbanService.ApiCall S) (s s' : S)
     (taskId : JsValue) (labelName : string) (updates : JsObject) (task : KanbanTask),
     h _ (KanbanService.fetchTask taskId) s = (inr task, s') →
     (∀ label, label ∈ default [] (t_labels task) →
               prop label "name" ≠ JStr labelName) →
     let o := run h (KanbanService.updateLabel taskId (JStr labelName) updates) s in
     result o = inl (KanbanService.label_not_found (JStr labelName))
     ∧ calls o = [existT _ (KanbanService.fetchTask taskId)]
     ∧ Forall (fun c => KanbanService.is_write c = false) (calls o)
     ∧ final o = s')
  ∧ (∀ (S : Type) (h : Answers KanbanService.ApiCall S) (s s' : S)
       (taskId : JsValue) (labelName : string) (updates : JsObject) (task : KanbanTask)
       (earlier later : list JsObject) (label : JsObject),
       h _ (KanbanService.fetchTask taskId) s = (inr task, s') →
       default [] (t_labels task) = (earlier ++ label :: later)%list →
       prop label "name" = JStr labelName →
       (∀ label', label' ∈ earlier → prop label' "name" ≠ JStr labelName) →
       calls (run h (KanbanService.updateLabel taskId (JStr labelName) updates) s)
       = [existT _ (KanbanService.fetchTask taskId);
          existT _ (KanbanService.putTask taskId
                      {[ "labels" :=
                           JArr (JObj <$> (earlier
                                           ++ KanbanService.patch updates label
                                           :: later)%list) ]})])
  ∧ (∀ (S : Type) (h : Answers SvcCall S) (s s' : S) (args : JsObject)
       (e : KanbanError),
       h _ (updateLabel (prop args "taskId") (prop args "labelName")
              (update_label_updates args)) s = (inl e, s') →
       let o := run h (reg_handler update_label args) s in
       result o = inr (text_result (cat ["Failed to update label: "; message e]))
       ∧ calls o = [existT _ (updateLabel (prop args "taskId")
                                (prop args "labelName") (update_label_updates args))]
       ∧ final o = s').
Proof.
  split; [|split].
  - intros S h s s' taskId labelName updates task Hfetch Hnone o.
    assert (list_find (fun label => KanbanService.named (JStr labelName) label)
              (default [] (t_labels task)) = None) as Hfind.
    { apply list_find_None, Forall_forall. intros label Hin Hnamed.
      apply Is_true_true, named_spec in Hnamed. by apply (Hnone label). }
    assert (run h (KanbanService.updateLabel taskId (JStr labelName) updates) s
            = {| result := inl (KanbanService.label_not_found (JStr labelName));
                 final := s';
                 calls := [existT _ (KanbanService.fetchTask taskId)] |}) as Ho.
    { unfold KanbanService.updateLabel.
      rewrite run_bind, run_await, Hfetch. cbn [result final calls fst snd].
      rewrite Hfind. reflexivity. }
    subst o. rewrite Ho. cbn [result final calls].
    repeat split. by repeat constructor.
  - intros S h s s' taskId labelName updates task earlier later label
      Hfetch Hlabels Hname Hearlier.
    assert (list_find (fun label => KanbanService.named (JStr labelName) label)
              (default [] (t_labels task)) = Some (length earlier, label)) as Hfind.
    { rewrite Hlabels. apply list_find_Some. split; [|split].
      - by rewrite lookup_app_r, Nat.sub_diag.
      - by apply Is_true_true, named_spec.
      - intros j label' Hj Hlt Hnamed.
        apply Is_true_true, named_spec in Hnamed.
        rewrite lookup_app_l in Hj by done.
        apply (Hearlier label'); [|done]. by eapply list_elem_of_lookup_2. }
    unfold KanbanService.updateLabel.
    rewrite run_bind, run_await, Hfetch. cbn [result final calls fst snd].
    rewrite Hfind, run_await. cbn [calls app].
    rewrite Hlabels.
    replace (length earlier) with (length earlier + 0)%nat by lia.
    rewrite alter_app_r. reflexivity.
  - intros S h s s' args e Hh o. subst o. rewrite run_reg_handler.
    cbn [result final calls reg_try reg_failure update_label].
    unfold update_label_try.
    rewrite run_bind, run_await, Hh. done.
Qed.

(** The sample task has the labels urgent, Foo, Foo: "foo" names none of
    them, and an update of "Foo" rewrites the second label of the array. *)
Lemma label_update_sample :
  (let o := run (remote (sample_task None))
              (KanbanService.updateLabel (JStr "t1") (JStr "foo")
                 {[ "pinned" := JBool true ]}) 0%nat in
   result o = inl (KanbanService.label_not_found (JStr "foo"))
   ∧ calls o = [existT _ (KanbanService.fetchTask (JStr "t1"))]
   ∧ Forall (fun c => KanbanService.is_write c = false) (calls o)
   ∧ final o = 0%nat)
  ∧ calls (run (remote (sample_task None))
             (KanbanService.updateLabel (JStr "t1") (JStr "Foo")
                {[ "name" := JStr "Bar" ]}) 0%nat)
    = [existT _ (KanbanService.fetchTask (JStr "t1"));
       existT _ (KanbanService.putTask (JStr "t1")
                   {[ "labels" :=
                        JArr [JObj {[ "name" := JStr "urgent" ]};
                              JObj {[ "name" := JStr "Bar"; "pinned" := JBool false ]};
                              JObj {[ "name" := JStr "Foo"; "pinned" := JBool true ]}] ]})].
Proof.
  destruct label_update_addresses_the_first_match as (Hnone & Hfirst & _).
  split.
  - apply (Hnone nat (remote (sample_task None)) 0%nat 0%nat (JStr "t1") "foo"
             {[ "pinned" := JBool true ]} (sample_task None)); [reflexivity|].
    intros label Hin. simpl in Hin.
    repeat (apply elem_of_cons in Hin as [-> | Hin]);
      try (by apply elem_of_nil in Hin); vm_compute; discriminate.
  - rewrite (Hfirst nat (remote (sample_task None)) 0%nat 0%nat (JStr "t1") "Foo"
               {[ "name" := JStr "Bar" ]} (sample_task None)
               [ {[ "name" := JStr "urgent" ]} ]
               [ {[ "name" := JStr "Foo"; "pinned" := JBool true ]} ]
               {[ "name" := JStr "Foo"; "pinned" := JBool false ]});
      [ vm_compute; reflexivity | reflexivity | reflexivity | reflexivity | ].
    intros label Hin.
    apply elem_of_cons in Hin as [-> | Hin]; [vm_compute; discriminate|].
    by apply elem_of_nil in Hin.
Defined.

(** ** C5: the cap of get-all-tasks *)



(** ** C7: create-task-with-subtasks *)

Lemma run_addEach {S} (h : Answers KanbanService.ApiCall S) (taskId : JsValue)
    (subtasks : list JsValue) (s : S) (added : list AddedSubtask) :
  result (run h (KanbanService.addEach taskId subtasks) s) = inr added →
  calls (run h (KanbanService.addEach taskId subtasks) s)
  = map (fun subtask => existT _ (KanbanService.postSubtask taskId subtask)) subtasks
  ∧ map as_name added
    = map (fun subtask => shown (member subtask "name")) subtasks.
Proof.
  revert s added. induction subtasks as [|subtask rest IH]; intros s added.
  - simpl. intros [= <-]. done.
  - cbn [KanbanService.addEach]. rewrite run_bind, run_await.
    cbn [result final calls].
    destruct (h _ (KanbanService.postSubtask taskId subtask) s) as [[e | r] s1];
      cbn [fst snd]; [discriminate|].
    rewrite run_bind. cbn [result final calls].
    destruct (result (run h (KanbanService.addEach taskId rest) s1))
      as [e | more] eqn:Hrest; cbn [result calls]; [discriminate|].
    intros [= <-]. destruct (IH s1 more Hrest) as [Hcalls Hnames].
    cbn [calls app map as_name]. rewrite Hcalls, Hnames, app_nil_r. done.
Qed.

Lemma addEach_returns {S} (h : Answers KanbanService.ApiCall S) (taskId : JsValue)
    (subtasks : list JsValue) (s : S) :
  (∀ X (c : KanbanService.ApiCall X) s0, ∃ x s1, h X c s0 = (inr x, s1)) →
  ∃ added, result (run h (KanbanService.addEach taskId subtasks) s) = inr added.
Proof.
  intros Hok. revert s. induction subtasks as [|subtask rest IH]; intros s.
  - by exists [].
  - cbn [KanbanService.addEach]. rewrite run_bind, run_await.
    destruct (Hok _ (KanbanService.postSubtask taskId subtask) s) as (r & s1 & ->).
    cbn [result final calls fst snd]. rewrite run_bind.
    destruct (IH s1) as [more ->]. cbn [result]. eauto.
Qed.

(** C7. Against the remote client as the specification describes it:
    when the remote board accepts every call, createTaskWithSubtasks
    returns a result; and whenever it returns a result for a request with n
    subtasks, the calls it has made are one task-create call followed by
    n subtask-add calls, one per subtask of the request in the order
    supplied, each for the task just created; the result holds one added
    subtask (name and insertion index) per subtask of the request, in
    order, and its totalSubtasks is n. The request the tool (entry module)
    hands over carries the subtasks of the arguments as they are. *)
Theorem create_task_with_subtasks_adds_each_in_order
    (S : Type) (h : Answers KanbanService.ApiCall S) (s : S) (req : JsObject) :
  ((∀ X (c : KanbanService.ApiCall X) s0, ∃ x s1, h X c s0 = (inr x, s1)) →
   ∃ response, result (run h (KanbanService.createTaskWithSubtasks req) s) = inr response)
  ∧ (∀ response : CreateTaskWithSubtasksResponse,
       result (run h (KanbanService.createTaskWithSubtasks req) s) = inr response →
       calls (run h (KanbanService.createTaskWithSubtasks req) s)
       = KanbanService.expected_calls req (cws_taskId response)
       ∧ length (calls (run h (KanbanService.createTaskWithSubtasks req) s))
         = Datatypes.S (length (KanbanService.subtasks_of req))
       ∧ cws_totalSubtasks response = Z.of_nat (length (KanbanService.subtasks_of req))
       ∧ length (cws_addedSubtasks response) = length (KanbanService.subtasks_of req)
       ∧ map as_name (cws_addedSubtasks response)
         = map (fun subtask => shown (member subtask "name"))
               (KanbanService.subtasks_of req))
  ∧ (∀ args, prop (create_task_with_subtasks_request args) "subtasks"
             = prop args "subtasks").
Proof.
  split; [|split].
  - intros Hok. unfold KanbanService.createTaskWithSubtasks.
    rewrite run_bind, run_await.
    destruct (Hok _ (KanbanService.postTask (delete "subtasks" req)) s)
      as (created & s1 & ->).
    cbn [result final calls fst snd]. rewrite run_bind.
    destruct (addEach_returns h (JStr (ctr_taskId created))
                (KanbanService.subtasks_of req) s1 Hok) as [added ->].
    cbn [result]. eauto.
  - intros response.
    unfold KanbanService.createTaskWithSubtasks, KanbanService.expected_calls.
    rewrite run_bind, run_await. cbn [result final calls].
    destruct (h _ (KanbanService.postTask (delete "subtasks" req)) s)
      as [[e | created] s1]; cbn [fst snd]; [discriminate|].
    rewrite run_bind. cbn [result final calls].
    destruct (result (run h (KanbanService.addEach (JStr (ctr_taskId created))
                               (KanbanService.subtasks_of req)) s1))
      as [e | added] eqn:Hadded; cbn [result calls]; [discriminate|].
    intros [= <-]. cbn [cws_taskId cws_totalSubtasks cws_addedSubtasks].
    destruct (run_addEach h _ _ _ _ Hadded) as [Hcalls Hnames].
    assert (length added = length (KanbanService.subtasks_of req)) as Hlen.
    { apply (f_equal length) in Hnames. by rewrite !length_map in Hnames. }
    rewrite Hcalls, app_nil_r, Hlen. cbn [app length]. rewrite length_map.
    repeat split; try done.
  - intros args. unfold create_task_with_subtasks_request, object_literal, prop, set_prop.
    cbn [foldl fst snd]. by rewrite lookup_insert_eq.
Qed.

(** The call of the specification: a task "T" with the subtasks a and b. *)
Lemma create_task_with_subtasks_sample :
  let req : JsObject :=
    {[ "name" := JStr "T"; "columnId" := JStr "C";
       "subtasks" := JArr [JObj {[ "name" := JStr "a" ]};
                           JObj {[ "name" := JStr "b" ]}] ]} in
  let o := run (remote (sample_task None))
             (KanbanService.createTaskWithSubtasks req) 0%nat in
  calls o
  = [existT _ (KanbanService.postTask
                 {[ "name" := JStr "T"; "columnId" := JStr "C" ]});
     existT _ (KanbanService.postSubtask (JStr "new-task")
                 (JObj {[ "name" := JStr "a" ]}));
     existT _ (KanbanService.postSubtask (JStr "new-task")
                 (JObj {[ "name" := JStr "b" ]}))]
  ∧ result o
    = inr {| cws_taskId := "new-task"; cws_taskName := "T";
             cws_addedSubtasks := [ {| as_name := "a"; as_insertIndex := 0 |};
                                    {| as_name := "b"; as_insertIndex := 1 |} ];
             cws_totalSubtasks := 2 |}.
Proof.
  intros req o.
  assert (result o
          = inr {| cws_taskId := "new-task"; cws_taskName := "T";
                   cws_addedSubtasks := [ {| as_name := "a"; as_insertIndex := 0 |};
                                          {| as_name := "b"; as_insertIndex := 1 |} ];
                   cws_totalSubtasks := 2 |}) as Hres
    by (vm_compute; reflexivity).
  split; [|exact Hres].
  destruct (create_task_with_subtasks_adds_each_in_order
              nat (remote (sample_task None)) 0%nat req) as (_ & Hgiven & _).
  destruct (Hgiven _ Hres) as (Hcalls & _).
  fold o in Hcalls. rewrite Hcalls. vm_compute. reflexivity.
Defined.

(** ** C9: the setup wizard and an existing configuration file *)

Lemma run_say {S X} (h : Answers FsCall S) (c : FsCall X) (s : S) :
  run h (say c) s
  = {| result := inr tt; final := (h X c s).2; calls := [existT X c] |}.
Proof. unfold say. simpl. by destruct (h X c s). Qed.

Lemma length_append (a b : string) :
  String.length (a +:+ b) = (String.length a + String.length b)%nat.
Proof.
  induction a as [|x a IH]; [reflexivity|].
  change (Datatypes.S (String.length (a +:+ b))
          = Datatypes.S (String.length a + String.length b)).
  by rewrite IH.
Qed.

Section WizardFacts.

Variable JSON_parse : string → option JsValue.
Variable JSON_stringify : JsValue → string.
Variable path_join : string → string → string.
Variable path_basename : string → string.
Variable Date_now : Z.

(** The backup is another file than the configuration. *)
Lemma backupPath_differs (mcpJsonPath : string) :
  backupPath_of Date_now mcpJsonPath ≠ mcpJsonPath.
Proof.
  unfold backupPath_of. intros Heq. apply (f_equal String.length) in Heq.
  change (cat [mcpJsonPath; ".backup."; shown Date_now])
    with (mcpJsonPath +:+ (".backup." +:+ shown Date_now)) in Heq.
  rewrite length_append in Heq.
  change (String.length (".backup." +:+ shown Date_now))
    with (Datatypes.S (String.length ("backup." +:+ shown Date_now))) in Heq.
  lia.
Qed.

(** What the merge keeps of an existing configuration: every top-level
    entry but [mcpServers], and every server but [kanban-flow]. *)
Lemma finalConfig_keeps (existing : JsValue) (execConfig : JsObject) (apiToken : string) :
  (∀ k, k ≠ "mcpServers" →
        finalConfig_of existing execConfig apiToken !! k = spread existing !! k)
  ∧ ∃ servers,
      finalConfig_of existing execConfig apiToken !! "mcpServers" = Some (JObj servers)
      ∧ (∀ n, n ≠ "kanban-flow" →
              servers !! n = spread (member existing "mcpServers") !! n)
      ∧ servers !! "kanban-flow"
        = Some (JObj (<["env" := JObj {[ "KANBAN_API_TOKEN" := JStr apiToken ]}]>
                        execConfig)).
Proof.
  unfold finalConfig_of. split.
  - intros k Hk. by rewrite lookup_insert_ne.
  - eexists. split; [by rewrite lookup_insert_eq|]. split.
    + intros n Hn. unfold mcpConfig_mcpServers.
      rewrite lookup_union_r; [done|]. by rewrite lookup_singleton_ne.
    + unfold mcpConfig_mcpServers.
      erewrite lookup_union_Some_l; [done|]. by rewrite lookup_singleton_eq.
Qed.

(** Evaluation of a program against the disk, as far as the disk, the parser
    and the tests on the parsed value are known. *)
Ltac evaluate :=
  cbn [run mbind prog_bind bind try_catch mret prog_ret fs_answers await say
       result final calls fst snd andb].

(** C9, as the code has it. The wizard run where the configuration file
    exists returns its path, and leaves the disk as follows. If the file
    parses and lists at least one server, it is first copied, as it was, to
    the backup path, and then overwritten with the merged configuration. If
    the file parses and lists no server, it is overwritten with the merged
    configuration, no copy is made and no other file is touched: there is
    no backup. In both cases the merged configuration keeps every top-level
    entry of the file except [mcpServers], and within [mcpServers] every
    server except [kanban-flow], which is set anew. If the file does not
    parse, it is overwritten with the new configuration alone, and no copy
    is made. *)
Theorem wizard_merges_and_backs_up_listed_servers
    (projectPath : string) (execConfig : JsObject) (apiToken : string)
    (files : gmap string string) (content : string) :
  let mcpJsonPath := mcpJsonPath_of path_join projectPath in
  let o := run fs_answers
             (createCursorMcpConfig JSON_parse JSON_stringify path_join
                path_basename Date_now projectPath execConfig apiToken) files in
  files !! mcpJsonPath = Some content →
  result o = inr mcpJsonPath
  ∧ (∀ existing, JSON_parse content = Some existing →
       let finalConfig := finalConfig_of existing execConfig apiToken in
       (has_servers existing = true →
          final o = <[mcpJsonPath := JSON_stringify (JObj finalConfig)]>
                      (<[backupPath_of Date_now mcpJsonPath := content]> files)
          ∧ final o !! backupPath_of Date_now mcpJsonPath = Some content
          ∧ ∃ before between,
              calls o
              = (before
                 ++ existT _ (fs_copyFile mcpJsonPath (backupPath_of Date_now mcpJsonPath))
                 :: between
                 ++ [existT _ (fs_writeFile mcpJsonPath
                                 (JSON_stringify (JObj finalConfig)))])%list)
       ∧ (has_servers existing = false →
          final o = <[mcpJsonPath := JSON_stringify (JObj finalConfig)]> files
          ∧ Forall (fun c => is_copy c = false) (calls o))
       ∧ (∀ k, k ≠ "mcpServers" → finalConfig !! k = spread existing !! k)
       ∧ (∃ servers,
            finalConfig !! "mcpServers" = Some (JObj servers)
            ∧ ∀ n, n ≠ "kanban-flow" →
                   servers !! n
                   = spread (member existing "mcpServers") !! n))
  ∧ (JSON_parse content = None →
       final o = <[mcpJsonPath :=
                     JSON_stringify (JObj (finalConfig_of (JObj ∅) execConfig apiToken))]>
                   files
       ∧ Forall (fun c => is_copy c = false) (calls o)).
Proof.
  intros mcpJsonPath o Hfile. subst o.
  unfold createCursorMcpConfig, parse.
  fold (mcpJsonPath_of path_join projectPath). fold mcpJsonPath.
  clearbody mcpJsonPath.
  evaluate. rewrite Hfile. evaluate.
  destruct (JSON_parse content) as [existing|] eqn:Hparse; evaluate.
  - destruct (finalConfig_keeps existing execConfig apiToken)
      as (Htop & servers & Hservers & Hkeep & _).
    destruct (has_servers existing) eqn:Hhas; evaluate.
    + destruct (truthy (member
                          (member existing "mcpServers") "kanban-flow"));
        evaluate; rewrite Hfile; evaluate.
      all: split; [reflexivity|]; split; [|discriminate].
      all: intros existing' [= <-]; cbn zeta; rewrite Hhas.
      all: split; [intros _ | split; [discriminate|]].
      all: try (split; [exact Htop|]; exists servers; by split).
      all: split; [reflexivity|]; split.
      all: try (rewrite lookup_insert_ne by (apply not_eq_sym, backupPath_differs);
                by rewrite lookup_insert_eq).
      all: eexists [_; _; _; _], [_].
      all: reflexivity.
    + split; [reflexivity|]. split; [|discriminate].
      intros existing' [= <-]. cbn zeta. rewrite Hhas.
      split; [discriminate|]. split.
      * intros _. split; [reflexivity|]. by repeat constructor.
      * split; [exact Htop|]. exists servers. by split.
  - split; [reflexivity|]. split; [discriminate|].
    intros _. split; [reflexivity|]. by repeat constructor.
Qed.

End WizardFacts.

(** A configuration that lists the server github: the wizard copies the
    file to the backup path and writes the merged configuration. *)
Lemma wizard_backs_up_one_server :
  let files : gmap string string := {[ "/proj/.cursor/mcp.json" := one_server_text ]} in
  let o := run fs_answers sample_wizard files in
  result o = inr "/proj/.cursor/mcp.json"
  ∧ final o !! "/proj/.cursor/mcp.json.backup.1700000000000" = Some one_server_text
  ∧ final o !! "/proj/.cursor/mcp.json"
    = Some (sample_stringify
              (JObj (finalConfig_of
                       (JObj {[ "mcpServers" :=
                                  JObj {[ "github" :=
                                            JObj {[ "command" := JStr "gh" ]} ]} ]})
                       sample_execConfig "secret"))).
Proof.
  intros files o. subst o. unfold sample_wizard.
  assert (files !! mcpJsonPath_of sample_join "/proj" = Some one_server_text) as Hfile
    by (vm_compute; reflexivity).
  destruct (wizard_merges_and_backs_up_listed_servers
              sample_parse sample_stringify sample_join sample_basename 1700000000000
              "/proj" sample_execConfig "secret" files one_server_text Hfile)
    as (Hres & Hparsed & _).
  split; [exact Hres|].
  assert (sample_parse one_server_text
          = Some (JObj {[ "mcpServers" :=
                            JObj {[ "github" := JObj {[ "command" := JStr "gh" ]} ]} ]}))
    as Hparse by (vm_compute; reflexivity).
  destruct (Hparsed _ Hparse) as (Hbackup & _).
  destruct Hbackup as (Hfinal & Hlookup & _); [vm_compute; reflexivity|].
  split; [exact Hlookup|].
  rewrite Hfinal. apply lookup_insert_eq.
Defined.

(** C9, as stated, fails: a configuration file that exists, parses and has
    an entry, but lists no server, is overwritten and no backup of it is
    made; after the run the configuration is the only file on the disk,
    and the calls to the disk are the read and the write. A file that is not
    JSON is overwritten the same way. *)
Lemma wizard_overwrites_settings_without_backup :
  let files : gmap string string := {[ "/proj/.cursor/mcp.json" := settings_text ]} in
  let o := run fs_answers sample_wizard files in
  sample_parse settings_text = Some (JObj {[ "theme" := JStr "dark" ]})
  ∧ result o = inr "/proj/.cursor/mcp.json"
  ∧ final o
    = {[ "/proj/.cursor/mcp.json" :=
           sample_stringify
             (JObj (finalConfig_of (JObj {[ "theme" := JStr "dark" ]})
                      sample_execConfig "secret")) ]}
  ∧ calls o
    = [existT _ (fs_mkdir "/proj/.cursor");
       existT _ (fs_readFile "/proj/.cursor/mcp.json");
       existT _ (fs_writeFile "/proj/.cursor/mcp.json"
                   (sample_stringify
                      (JObj (finalConfig_of (JObj {[ "theme" := JStr "dark" ]})
                               sample_execConfig "secret"))))]
  ∧ final (run fs_answers sample_wizard {[ "/proj/.cursor/mcp.json" := "not json" ]})
    = {[ "/proj/.cursor/mcp.json" :=
           sample_stringify (JObj (finalConfig_of (JObj ∅) sample_execConfig "secret")) ]}.
Proof.
  repeat split; vm_compute; reflexivity.
Qed.

(** * Further properties of the code *)

(** ** The calls a writing tool makes *)

(** X1. Each of the ten tools that change a task makes its write first. If
    the service rejects the write, that is the only call and the text is
    the tool's failure text with the error's message. If the service accepts
    the write, the tool reads the task back once, by the same task id and
    with no includePosition, and makes no other call; if that read is
    rejected, the text is again the failure text, although the write has
    been applied. No call is ever repeated. *)
Theorem write_then_read_back (r : Registration) (w : JsObject → sigT SvcCall) :
  (r, w) ∈ write_tools →
  ∀ (S : Type) (h : Answers SvcCall S) (s : S) (args : JsObject),
    let o := run h (reg_handler r args) s in
    match w args with
    | existT X c =>
        match h X c s with
        | (inl e, s1) =>
            calls o = [existT X c] ∧ final o = s1
            ∧ result o = inr (text_result (cat [reg_failure r; message e]))
        | (inr _, s1) =>
            calls o = [existT X c; existT _ (read_back args)]
            ∧ final o = (h _ (read_back args) s1).2
            ∧ ∀ e, (h _ (read_back args) s1).1 = inl e →
                   result o = inr (text_result (cat [reg_failure r; message e]))
        end
    end.
Proof.
  intros Hin S h s args o. subst o. unfold write_tools in Hin.
  repeat (apply elem_of_cons in Hin as [[= -> ->] | Hin]);
    try (by apply elem_of_nil in Hin);
    rewrite run_reg_handler;
    cbn [reg_try reg_failure result final calls update_task add_subtask
         update_subtask_by_position add_label update_label set_task_due_date
         update_custom_field add_comment update_comment add_subtasks];
    unfold update_task_try, add_subtask_try, update_subtask_by_position_try,
      add_label_try, update_label_try, set_task_due_date_try,
      update_custom_field_try, add_comment_try, update_comment_try,
      add_subtasks_try, read_back;
    rewrite run_bind, run_await;
    match goal with
    | |- context [h ?X ?c s] => destruct (h X c s) as [[e | x] s1]
    end;
    cbn [result final calls fst snd]; try done.
  all: rewrite run_bind, run_await.
  all: match goal with
       | |- context [(?f ?X ?c ?s').1] => destruct (f X c s') as [[e | task] s2]
       end.
  all: cbn [result final calls fst snd app].
  all: try (split; [reflexivity | split; [reflexivity | by intros e' [= <-]]]).
  all: try (split; [reflexivity | split; [reflexivity | intros e' [=]]]).
  all: destruct (prop args "text"); cbn [string_method truthy js_truthy];
    repeat match goal with
           | |- context [run _ ((if ?b then _ else _) ≫= _) _] => destruct b
           end;
    (split; [reflexivity | split; [reflexivity | intros e' [=]]]).
Qed.

(** update-task against a service that accepts, and against one that
    rejects. *)
Lemma write_then_read_back_update_task :
  calls (run (accepting (sample_task None))
           (reg_handler update_task
              {[ "taskId" := JStr "t1"; "name" := JStr "Ship it" ]}) tt)
  = [existT _ (updateTask (JStr "t1") {[ "name" := JStr "Ship it" ]});
     existT _ (getTaskDetails (JStr "t1") JUndefined)]
  ∧ calls (run (rejecting (Error "503"))
             (reg_handler update_task
                {[ "taskId" := JStr "t1"; "name" := JStr "Ship it" ]}) tt)
    = [existT _ (updateTask (JStr "t1") {[ "name" := JStr "Ship it" ]})].
Proof.
  assert ((update_task,
           fun args => existT _ (updateTask (prop args "taskId")
                                   (update_task_updates args)))
          ∈ write_tools) as Hin by apply list_elem_of_here.
  split.
  - destruct (write_then_read_back _ _ Hin unit (accepting (sample_task None)) tt
                {[ "taskId" := JStr "t1"; "name" := JStr "Ship it" ]}) as (Hcalls & _).
    rewrite Hcalls. vm_compute. reflexivity.
  - destruct (write_then_read_back _ _ Hin unit (rejecting (Error "503")) tt
                {[ "taskId" := JStr "t1"; "name" := JStr "Ship it" ]}) as (Hcalls & _).
    rewrite Hcalls. vm_compute. reflexivity.
Defined.

(** ** The payloads of the tools that add, and of set-task-due-date *)

(** Membership in a list that is written out. *)
Ltac in_list :=
  repeat first [ apply list_elem_of_here | apply list_elem_of_further ].

Ltac not_in_list H :=
  repeat (apply elem_of_cons in H as [? | H]; [congruence|]);
  by apply elem_of_nil in H.

Lemma lookup_set_if_truthy (k : string) (v : JsValue) (o : JsObject) (j : string) :
  set_if_truthy k v o !! j
  = if decide (k = j) then (if truthy v then Some v else o !! j) else o !! j.
Proof.
  unfold set_if_truthy, set_prop.
  destruct (truthy v); case_decide; subst; simplify_map_eq; reflexivity.
Qed.

(** X2. The object that add-subtask, add-label and add-comment hand to the
    service holds the required field (name, name, text) as given, each
    optional argument that was supplied, under its own key, and no other
    key; an optional argument supplied as false or as the empty string is
    kept. *)
Theorem adding_payload_is_required_plus_supplied (args : JsObject) :
  (∀ k, add_subtask_subtask args !! k
        = if decide (k ∈ ["finished"; "userId"; "dueDateTimestamp";
                          "dueDateTimestampLocal"])
          then supplied args k
          else if decide (k = "name") then Some (prop args "name") else None)
  ∧ (∀ k, add_label_label args !! k
          = if decide (k ∈ ["pinned"]) then supplied args k
            else if decide (k = "name") then Some (prop args "name") else None)
  ∧ (∀ k, add_comment_comment args !! k
          = if decide (k ∈ ["authorUserId"; "createdTimestamp"])
            then supplied args k
            else if decide (k = "text") then Some (prop args "text") else None).
Proof.
  split; [|split]; intros k.
  - change (add_subtask_subtask args)
      with (copy_supplied ["finished"; "userId"; "dueDateTimestamp";
                           "dueDateTimestampLocal"] args
              (<["name" := prop args "name"]> ∅)).
    rewrite lookup_copy_supplied.
    destruct (decide (k ∈ _)) as [Hin | Hout].
    + destruct (supplied args k); [reflexivity|].
      rewrite lookup_insert_ne; [apply lookup_empty|].
      intros <-. not_in_list Hin.
    + destruct (decide (k = "name")) as [-> | Hne].
      * apply lookup_insert_eq.
      * rewrite lookup_insert_ne by done. apply lookup_empty.
  - change (add_label_label args)
      with (copy_supplied ["pinned"] args (<["name" := prop args "name"]> ∅)).
    rewrite lookup_copy_supplied.
    destruct (decide (k ∈ _)) as [Hin | Hout].
    + destruct (supplied args k); [reflexivity|].
      rewrite lookup_insert_ne; [apply lookup_empty|].
      intros <-. not_in_list Hin.
    + destruct (decide (k = "name")) as [-> | Hne].
      * apply lookup_insert_eq.
      * rewrite lookup_insert_ne by done. apply lookup_empty.
  - change (add_comment_comment args)
      with (copy_supplied ["authorUserId"; "createdTimestamp"] args
              (<["text" := prop args "text"]> ∅)).
    rewrite lookup_copy_supplied.
    destruct (decide (k ∈ _)) as [Hin | Hout].
    + destruct (supplied args k); [reflexivity|].
      rewrite lookup_insert_ne; [apply lookup_empty|].
      intros <-. not_in_list Hin.
    + destruct (decide (k = "text")) as [-> | Hne].
      * apply lookup_insert_eq.
      * rewrite lookup_insert_ne by done. apply lookup_empty.
Qed.

(** X3. The object that set-task-due-date hands to the service always
    holds dueTimestamp and targetColumnId as given; it holds
    dueTimestampLocal, dateType and status only when the argument is
    truthy, so one supplied as the empty string is left out exactly as if
    it had been omitted; it holds no other key. *)
Theorem due_date_payload_drops_falsy_options (args : JsObject) :
  (∀ k, set_task_due_date_dateInfo args !! k
        = if decide (k ∈ ["dueTimestampLocal"; "dateType"; "status"])
          then (if truthy (prop args k) then Some (prop args k) else None)
          else if decide (k ∈ ["dueTimestamp"; "targetColumnId"])
               then Some (prop args k) else None)
  ∧ (∀ k, k ∈ ["dueTimestampLocal"; "dateType"; "status"] →
          set_task_due_date_dateInfo (<[k := JStr ""]> args)
          = set_task_due_date_dateInfo (delete k args)).
Proof.
  assert (∀ a k, set_task_due_date_dateInfo a !! k
        = if decide (k ∈ ["dueTimestampLocal"; "dateType"; "status"])
          then (if truthy (prop a k) then Some (prop a k) else None)
          else if decide (k ∈ ["dueTimestamp"; "targetColumnId"])
               then Some (prop a k) else None) as Hlookup.
  { intros a k. unfold set_task_due_date_dateInfo, object_literal.
    cbn [foldl fst snd]. unfold set_prop at 1 2.
    rewrite !lookup_set_if_truthy.
    destruct (decide (k ∈ ["dueTimestampLocal"; "dateType"; "status"])) as [Hin | Hout].
    - repeat (apply elem_of_cons in Hin as [-> | Hin]);
        try (by apply elem_of_nil in Hin);
        repeat (case_decide; try congruence);
        repeat match goal with
               | |- context [truthy ?v] => destruct (truthy v)
               end;
        by simplify_map_eq.
    - assert ("status" ≠ k ∧ "dateType" ≠ k ∧ "dueTimestampLocal" ≠ k)
        as (H1 & H2 & H3).
      { repeat split; intros <-; apply Hout; in_list. }
      rewrite !decide_False by done.
      destruct (decide (k ∈ ["dueTimestamp"; "targetColumnId"])) as [Hin | Hout'].
      + repeat (apply elem_of_cons in Hin as [-> | Hin]);
          try (by apply elem_of_nil in Hin); by simplify_map_eq.
      + assert ("targetColumnId" ≠ k ∧ "dueTimestamp" ≠ k) as (H4 & H5).
        { repeat split; intros <-; apply Hout'; in_list. }
        by simplify_map_eq. }
  split; [apply Hlookup|].
  intros k Hk. apply map_eq. intros j. rewrite !Hlookup.
  unfold prop.
  destruct (decide (k = j)) as [<- | Hne].
  - destruct (decide (k ∈ ["dueTimestampLocal"; "dateType"; "status"])); [|done].
    by rewrite lookup_insert_eq, lookup_delete_eq.
  - rewrite lookup_insert_ne, lookup_delete_ne by done. reflexivity.
Qed.

(** The status supplied as the empty string. *)
Lemma due_date_payload_sample :
  let args : JsObject :=
    {[ "taskId" := JStr "t1"; "dueTimestamp" := JStr "2024-05-01T12:00:00Z";
       "targetColumnId" := JStr "done" ]} in
  set_task_due_date_dateInfo (<["status" := JStr ""]> args)
  = set_task_due_date_dateInfo (delete "status" args)
  ∧ set_task_due_date_dateInfo (<["status" := JStr ""]> args)
    = {[ "dueTimestamp" := JStr "2024-05-01T12:00:00Z";
         "targetColumnId" := JStr "done" ]}.
Proof.
  intros args. split.
  - apply (proj2 (due_date_payload_drops_falsy_options args)). in_list.
  - vm_compute. reflexivity.
Defined.

(** ** The narratives *)



(** X5. get-task-details prints a task exactly as it prints the task's
    printed part: an optional member that is the empty string or 0, and a
    collection that is empty, are printed as if absent, and the swimlane,
    the collaborators and the custom fields of the task never appear in the
    text. *)
Theorem task_details_show_the_printed_part (task : KanbanTask) :
  formattedDetails (printed_part task) = formattedDetails task.
Proof.
  unfold formattedDetails, printed_part.
  cbn [t_id t_name t_columnId t_swimlaneId t_position t_description t_color
       t_number t_responsibleUserId t_totalSecondsSpent t_totalSecondsEstimate
       t_pointsEstimate t_groupingDate t_dates t_subTasks t_labels
       t_collaborators t_customFields t_relations].
  f_equal.
  repeat (apply (f_equal2 (@cons string)); [try reflexivity|]); try reflexivity.
  all: try match goal with
           | |- context [unless_falsy ?o] =>
               unfold unless_falsy; destruct (truthy o) eqn:Ho; rewrite ?Ho; reflexivity
           end.
  all: match goal with
       | |- context [some_nonempty (some_nonempty ?o)] =>
           by destruct o as [[|]|]
       end.
Qed.

(** ** Dispatch and validation *)

Lemma dispatch_finds (r : Registration) :
  r ∈ server_tools →
  find (fun r' => String.eqb (reg_name r') (reg_name r)) server_tools = Some r.
Proof.
  intros Hr. unfold server_tools in Hr.
  repeat (apply elem_of_cons in Hr as [-> | Hr]);
    try (by apply elem_of_nil in Hr); reflexivity.
Qed.

(** X6. The names of the sixteen registrations are pairwise different, so
    a call by a registered name is dispatched to the registration of that
    name: it runs that registration's handler on the parsed arguments when
    the registration's schema accepts them and is refused otherwise. A call
    by any other name reaches no handler. *)
Theorem dispatch_is_by_unique_name :
  NoDup (map reg_name server_tools)
  ∧ (∀ (r : Registration) (arguments : JsValue),
       r ∈ server_tools →
       callTool (reg_name r) arguments
       = match zod_parse (z_object (reg_schema r)) arguments with
         | Some (JObj args) => Handled (reg_handler r args)
         | _ => InvalidArguments
         end)
  ∧ (∀ (name : string) (arguments : JsValue),
       name ∉ map reg_name server_tools → callTool name arguments = UnknownTool).
Proof.
  split; [|split].
  - unfold server_tools.
    cbn [map reg_name get_board create_task get_tasks get_task_details
         update_task get_all_tasks add_subtask update_subtask_by_position
         add_label update_label set_task_due_date update_custom_field
         add_comment update_comment add_subtasks create_task_with_subtasks].
    repeat (apply NoDup_cons_2; [intros Hin; not_in_list Hin|]).
    apply NoDup_nil_2.
  - intros r arguments Hr. unfold callTool. by rewrite (dispatch_finds r Hr).
  - intros name arguments Hname. unfold callTool.
    destruct (find _ server_tools) as [r|] eqn:Hfind; [|reflexivity].
    apply find_some in Hfind as [Hin Heq]. apply String.eqb_eq in Heq.
    exfalso. apply Hname. rewrite <- Heq.
    apply list_elem_of_fmap. exists r. split; [done|]. by apply list_elem_of_In.
Qed.

(** A name that was never registered. *)
Lemma dispatch_unknown_name :
  callTool "delete-task" (JObj {[ "taskId" := JStr "t1" ]}) = UnknownTool.
Proof.
  apply (proj2 (proj2 dispatch_is_by_unique_name)).
  unfold server_tools. cbn [map reg_name get_board create_task get_tasks
    get_task_details update_task get_all_tasks add_subtask
    update_subtask_by_position add_label update_label set_task_due_date
    update_custom_field add_comment update_comment add_subtasks
    create_task_with_subtasks].
  intros Hin. not_in_list Hin.
Defined.

(** X7. For every registered tool and every argument its schema declares
    without [optional]: a call that leaves the argument out is refused
    before the handler runs, and makes no call to the service. *)
Theorem missing_required_argument_is_refused
    (r : Registration) (k : string) (t : ZodType) (arguments : JsObject) :
  r ∈ server_tools → (k, t) ∈ reg_schema r → required t = true →
  arguments !! k = None →
  callTool (reg_name r) (JObj arguments) = InvalidArguments
  ∧ ∀ (S : Type) (h : Answers SvcCall S) (s : S),
      service_calls h s (callTool (reg_name r) (JObj arguments)) = [].
Proof.
  intros Hr Hk Hreq Hmissing.
  apply (callTool_refused r arguments k t (dispatch_finds r Hr) Hk).
  unfold prop. rewrite Hmissing. simpl. by destruct t.
Qed.

(** create-task called without columnId. *)
Lemma missing_required_argument_sample :
  callTool "create-task" (JObj {[ "name" := JStr "T" ]}) = InvalidArguments
  ∧ ∀ (S : Type) (h : Answers SvcCall S) (s : S),
      service_calls h s (callTool "create-task" (JObj {[ "name" := JStr "T" ]})) = [].
Proof.
  apply (missing_required_argument_is_refused create_task "columnId" z_string
           {[ "name" := JStr "T" ]}).
  - unfold server_tools. in_list.
  - in_list.
  - reflexivity.
  - vm_compute. reflexivity.
Defined.

Lemma schemas_refuse_null :
  Forall (fun r => Forall (fun member => zod_parse member.2 JNull = None)
                          (reg_schema r)) server_tools.
Proof. repeat constructor. Qed.

(** X8. No argument of any registered tool accepts null: a call that
    supplies null for a declared argument, required or optional, is refused
    before the handler runs. In particular update-subtask-by-position
    refuses null for userId, dueDateTimestamp and dueDateTimestampLocal, the
    arguments whose description says to use null to clear them. *)
Theorem null_argument_is_refused
    (r : Registration) (k : string) (t : ZodType) (arguments : JsObject) :
  r ∈ server_tools → (k, t) ∈ reg_schema r →
  arguments !! k = Some JNull →
  callTool (reg_name r) (JObj arguments) = InvalidArguments
  ∧ ∀ (S : Type) (h : Answers SvcCall S) (s : S),
      service_calls h s (callTool (reg_name r) (JObj arguments)) = [].
Proof.
  intros Hr Hk Hnull.
  apply (callTool_refused r arguments k t (dispatch_finds r Hr) Hk).
  unfold prop. rewrite Hnull. simpl.
  pose proof schemas_refuse_null as Hall.
  rewrite Forall_forall in Hall. specialize (Hall r Hr).
  rewrite Forall_forall in Hall. apply (Hall (k, t) Hk).
Qed.

(** Clearing the assignee of a subtask with null. *)
Lemma null_argument_sample :
  callTool "update-subtask-by-position"
    (JObj {[ "taskId" := JStr "t1"; "index" := JNum 0; "userId" := JNull ]})
  = InvalidArguments
  ∧ ∀ (S : Type) (h : Answers SvcCall S) (s : S),
      service_calls h s
        (callTool "update-subtask-by-position"
           (JObj {[ "taskId" := JStr "t1"; "index" := JNum 0; "userId" := JNull ]}))
      = [].
Proof.
  apply (null_argument_is_refused update_subtask_by_position "userId"
           (z_optional z_string)
           {[ "taskId" := JStr "t1"; "index" := JNum 0; "userId" := JNull ]}).
  - unfold server_tools. in_list.
  - in_list.
  - vm_compute. reflexivity.
Defined.

Lemma parse_members_insert_other (parse : ZodType → JsValue → option JsValue)
    (data : JsObject) (shape : list (string * ZodType)) (k : string) (v : JsValue) :
  k ∉ map fst shape →
  parse_members parse (<[k := v]> data) shape = parse_members parse data shape.
Proof.
  induction shape as [|[k' tk'] shape IH]; intros Hk; [reflexivity|].
  assert (k ≠ k') as Hne by (intros ->; apply Hk; apply list_elem_of_here).
  assert (k ∉ map fst shape) as Hrest
    by (intros Hin; apply Hk; by apply list_elem_of_further).
  cbn [parse_members]. rewrite (IH Hrest).
  unfold prop, has_key. by rewrite lookup_insert_ne.
Qed.

Lemma parse_members_keys (parse : ZodType → JsValue → option JsValue)
    (data : JsObject) (shape : list (string * ZodType)) (o : JsObject) (k : string) :
  parse_members parse data shape = Some o → is_Some (o !! k) → k ∈ map fst shape.
Proof.
  revert o. induction shape as [|[k' tk'] shape IH]; intros o.
  - intros [= <-]. rewrite lookup_empty. by intros [? ?].
  - cbn [parse_members].
    destruct (parse tk' (prop data k')) as [r|]; [|discriminate].
    destruct (parse_members parse data shape) as [rest|]; [|discriminate].
    intros [= <-] Hsome. cbn [map fst].
    destruct (decide (k = k')) as [-> | Hne]; [apply list_elem_of_here|].
    apply list_elem_of_further, (IH rest eq_refl).
    destruct (is_defined r || has_key data k'); [|done].
    by rewrite lookup_insert_ne in Hsome.
Qed.

(** X9. For every registered tool, an argument under a key that the tool's
    schema does not declare changes nothing: the call is dispatched exactly
    as the call without it. The object a handler is run on has no key
    outside the schema. *)
Theorem undeclared_arguments_are_dropped (r : Registration) :
  r ∈ server_tools →
  (∀ (arguments : JsObject) (k : string) (v : JsValue),
     k ∉ map fst (reg_schema r) →
     callTool (reg_name r) (JObj (<[k := v]> arguments))
     = callTool (reg_name r) (JObj arguments))
  ∧ (∀ (arguments : JsValue) (p : Prog SvcCall ToolResult),
       callTool (reg_name r) arguments = Handled p →
       ∃ args, p = reg_handler r args
               ∧ ∀ k, is_Some (args !! k) → k ∈ map fst (reg_schema r)).
Proof.
  intros Hr. unfold callTool. rewrite (dispatch_finds r Hr). split.
  - intros arguments k v Hk.
    cbn [zod_parse]. by rewrite parse_members_insert_other.
  - intros arguments p.
    destruct arguments as [| | | | | |data]; try discriminate.
    cbn [zod_parse].
    destruct (parse_members zod_parse data (reg_schema r)) as [args|] eqn:Hparse;
      [|discriminate].
    cbn. intros [= <-]. exists args. split; [reflexivity|].
    intros k. by apply (parse_members_keys _ _ _ _ _ Hparse).
Qed.

(** get-tasks called with an argument it does not declare. *)
Lemma undeclared_arguments_sample :
  callTool "get-tasks" (JObj {[ "columnId" := JStr "c1"; "limit" := JNum 5 ]})
  = Handled (reg_handler get_tasks {[ "columnId" := JStr "c1" ]}).
Proof.
  assert (get_tasks ∈ server_tools) as Hr by (unfold server_tools; in_list).
  change ({[ "columnId" := JStr "c1"; "limit" := JNum 5 ]} : JsObject)
    with (<["columnId" := JStr "c1"]> (<["limit" := JNum 5]> (∅ : JsObject))).
  rewrite insert_insert_ne by done.
  rewrite (proj1 (undeclared_arguments_are_dropped get_tasks Hr)).
  - vm_compute. reflexivity.
  - intros Hin. cbn in Hin. not_in_list Hin.
Defined.

Lemma subtask_without_name_refused (item : JsValue) :
  (∀ s, member item "name" ≠ JStr s) → zod_parse subtask_schema item = None.
Proof.
  intros Hname. destruct item as [| | | | | |o]; try reflexivity.
  unfold subtask_schema. cbn [zod_parse].
  rewrite (parse_members_refused zod_parse o _ "name" z_string); [reflexivity| |].
  - apply list_elem_of_here.
  - cbn [member] in Hname. destruct (prop o "name"); try reflexivity.
    by destruct (Hname s).
Qed.

(** X10. add-subtasks and create-task-with-subtasks validate the whole
    list of subtasks before anything is done: if one element of the list is
    not an object with a string name, the call is refused, the handler is
    not run and no subtask (and no task) is sent to the service. *)
Theorem one_bad_subtask_refuses_the_whole_call
    (r : Registration) (arguments : JsObject) (items : list JsValue) (item : JsValue) :
  r = add_subtasks ∨ r = create_task_with_subtasks →
  arguments !! "subtasks" = Some (JArr items) →
  item ∈ items → (∀ s, member item "name" ≠ JStr s) →
  callTool (reg_name r) (JObj arguments) = InvalidArguments
  ∧ ∀ (S : Type) (h : Answers SvcCall S) (s : S),
      service_calls h s (callTool (reg_name r) (JObj arguments)) = [].
Proof.
  intros Hr Hsub Hin Hname.
  assert (zod_parse (z_array subtask_schema) (prop arguments "subtasks") = None)
    as Hrefused.
  { unfold prop. rewrite Hsub.
    change (JArr <$> mapM (zod_parse subtask_schema) items = None).
    rewrite (mapM_None_2 (zod_parse subtask_schema) items); [reflexivity|].
    apply Exists_exists. exists item. split; [done|].
    by apply subtask_without_name_refused. }
  destruct Hr as [-> | ->];
    apply (callTool_refused _ arguments "subtasks" (z_array subtask_schema));
    try reflexivity; try exact Hrefused; in_list.
Qed.

(** Two subtasks, the second without a name. *)
Lemma one_bad_subtask_sample :
  callTool "add-subtasks"
    (JObj {[ "taskId" := JStr "t1";
             "subtasks" := JArr [JObj {[ "name" := JStr "a" ]};
                                 JObj {[ "finished" := JBool true ]}] ]})
  = InvalidArguments
  ∧ ∀ (S : Type) (h : Answers SvcCall S) (s : S),
      service_calls h s
        (callTool "add-subtasks"
           (JObj {[ "taskId" := JStr "t1";
                    "subtasks" := JArr [JObj {[ "name" := JStr "a" ]};
                                        JObj {[ "finished" := JBool true ]}] ]}))
      = [].
Proof.
  apply (one_bad_subtask_refuses_the_whole_call add_subtasks
           {[ "taskId" := JStr "t1";
              "subtasks" := JArr [JObj {[ "name" := JStr "a" ]};
                                  JObj {[ "finished" := JBool true ]}] ]}
           [JObj {[ "name" := JStr "a" ]}; JObj {[ "finished" := JBool true ]}]
           (JObj {[ "finished" := JBool true ]})).
  - left. reflexivity.
  - vm_compute. reflexivity.
  - in_list.
  - intros s. vm_compute. discriminate.
Defined.

(** ** The setup wizard on any disk *)

Section WizardOnDisk.

Variable JSON_parse : string → option JsValue.
Variable JSON_stringify : JsValue → string.
Variable path_join : string → string → string.
Variable path_basename : string → string.
Variable Date_now : Z.

Ltac evaluate_on_disk :=
  cbn [run mbind prog_bind bind try_catch mret prog_ret faulty_fs await say
       result final calls fst snd andb].

(** What a run of the wizard returns and leaves on the disk, for every disk
    and every combination of denied operations. *)
Lemma wizard_outcome (f : Faults) (projectPath : string) (execConfig : JsObject)
    (apiToken : string) (files : gmap string string) :
  let mcpJsonPath := mcpJsonPath_of path_join projectPath in
  let o := run (faulty_fs f)
             (createCursorMcpConfig JSON_parse JSON_stringify path_join
                path_basename Date_now projectPath execConfig apiToken) files in
  let existing := files !! mcpJsonPath ≫= JSON_parse in
  let backed_up :=
    match existing with Some e => has_servers e && negb (copy_fails f) | None => false end in
  let before_write :=
    if backed_up
    then <[backupPath_of Date_now mcpJsonPath := default "" (files !! mcpJsonPath)]> files
    else files in
  let finalConfig := finalConfig_of (default (JObj ∅) existing) execConfig apiToken in
  result o = (if write_fails f then inl denied else inr mcpJsonPath)
  ∧ final o = (if write_fails f then before_write
               else <[mcpJsonPath := JSON_stringify (JObj finalConfig)]> before_write).
Proof.
  intros mcpJsonPath o existing backed_up before_write finalConfig.
  subst o backed_up before_write finalConfig existing.
  unfold createCursorMcpConfig, parse.
  fold (mcpJsonPath_of path_join projectPath). fold mcpJsonPath.
  clearbody mcpJsonPath.
  evaluate_on_disk.
  destruct (mkdir_fails f); evaluate_on_disk.
  all: destruct (files !! mcpJsonPath) as [content|] eqn:Hfile;
    cbn [mbind option_bind default]; evaluate_on_disk.
  all: try destruct (JSON_parse content) as [e|] eqn:Hparse;
    cbn [default]; evaluate_on_disk.
  all: try destruct (has_servers e) eqn:Hhas; evaluate_on_disk.
  all: try destruct (truthy (member (member e "mcpServers") "kanban-flow"));
    evaluate_on_disk.
  all: try (destruct (copy_fails f); evaluate_on_disk; rewrite ?Hfile;
            evaluate_on_disk).
  all: destruct (write_fails f); evaluate_on_disk; done.
Qed.

Lemma finalConfig_of_nothing (v : JsValue) (execConfig : JsObject) (apiToken : string) :
  match v with JUndefined | JNull | JBool _ | JNum _ => True | _ => v = JObj ∅ end →
  finalConfig_of v execConfig apiToken = fresh_config execConfig apiToken
  ∧ has_servers v = false.
Proof.
  intros Hv.
  assert (spread v = ∅ ∧ member v "mcpServers" = JUndefined ∧ has_servers v = false)
    as (Hspread & Hmember & Hhas).
  { assert (member v "mcpServers" = JUndefined) as Hmember.
    { destruct v as [| |b|n|s|items|o]; try done. by injection Hv as ->. }
    split; [|split; [exact Hmember|]].
    - destruct v as [| |b|n|s|items|o]; try done. by injection Hv as ->.
    - unfold has_servers. rewrite Hmember. cbn [truthy js_truthy].
      by rewrite andb_false_r. }
  split; [|exact Hhas].
  unfold finalConfig_of, fresh_config, mcpConfig_mcpServers.
  rewrite Hspread, Hmember. cbn [spread]. by rewrite (right_id ∅ (∪)).
Qed.

(** X11. When the configuration file does not exist, or holds JSON that is
    null, a number or a boolean, and the write is not denied, the wizard
    returns the path and leaves the disk with that one file written and
    nothing else changed: the file holds the configuration whose only entry
    is [mcpServers], whose only server is [kanban-flow], made of the launch
    command with [env] set to the API token. This is so whether or not the
    directory could be created. *)
Theorem wizard_writes_a_fresh_configuration
    (f : Faults) (projectPath : string) (execConfig : JsObject) (apiToken : string)
    (files : gmap string string) :
  let mcpJsonPath := mcpJsonPath_of path_join projectPath in
  let o := run (faulty_fs f)
             (createCursorMcpConfig JSON_parse JSON_stringify path_join
                path_basename Date_now projectPath execConfig apiToken) files in
  write_fails f = false →
  match files !! mcpJsonPath ≫= JSON_parse with
  | None | Some JNull | Some (JBool _) | Some (JNum _) => True
  | _ => False
  end →
  result o = inr mcpJsonPath
  ∧ final o = <[mcpJsonPath := JSON_stringify (JObj (fresh_config execConfig apiToken))]>
                files.
Proof.
  intros mcpJsonPath o Hwrite Hnothing.
  destruct (wizard_outcome f projectPath execConfig apiToken files) as [Hres Hfinal].
  fold mcpJsonPath in Hres, Hfinal. fold o in Hres, Hfinal.
  rewrite Hwrite in Hres, Hfinal. split; [exact Hres|]. rewrite Hfinal.
  destruct (files !! mcpJsonPath ≫= JSON_parse) as [v|]; cbn [from_option id].
  - destruct (finalConfig_of_nothing v execConfig apiToken) as [-> ->];
      [by destruct v | reflexivity].
  - by destruct (finalConfig_of_nothing (JObj ∅) execConfig apiToken) as [-> _].
Qed.

(** X12. What a denied disk operation does to a run of the wizard. A
    denied creation of the directory changes nothing. When the backup copy
    is denied, the wizard goes on and overwrites the configuration all the
    same, so the old content is lost without a backup. When the write of
    the configuration is denied, the wizard throws and the configuration
    file is left as it was. *)
Theorem wizard_under_denied_operations
    (f : Faults) (projectPath : string) (execConfig : JsObject) (apiToken : string)
    (files : gmap string string) :
  let mcpJsonPath := mcpJsonPath_of path_join projectPath in
  let wizard := createCursorMcpConfig JSON_parse JSON_stringify path_join
                  path_basename Date_now projectPath execConfig apiToken in
  let o := run (faulty_fs f) wizard files in
  (result o
   = result (run (faulty_fs {| mkdir_fails := false; copy_fails := copy_fails f;
                               write_fails := write_fails f |}) wizard files)
   ∧ final o
     = final (run (faulty_fs {| mkdir_fails := false; copy_fails := copy_fails f;
                                write_fails := write_fails f |}) wizard files))
  ∧ (copy_fails f = true → write_fails f = false →
     result o = inr mcpJsonPath
     ∧ final o
       = <[mcpJsonPath :=
             JSON_stringify
               (JObj (finalConfig_of
                        (default (JObj ∅) (files !! mcpJsonPath ≫= JSON_parse))
                        execConfig apiToken))]> files)
  ∧ (write_fails f = true →
     result o = inl denied ∧ final o !! mcpJsonPath = files !! mcpJsonPath).
Proof.
  intros mcpJsonPath wizard o.
  destruct (wizard_outcome f projectPath execConfig apiToken files) as [Hres Hfinal].
  fold mcpJsonPath in Hres, Hfinal. fold wizard in Hres, Hfinal. fold o in Hres, Hfinal.
  split; [|split].
  - destruct (wizard_outcome
                {| mkdir_fails := false; copy_fails := copy_fails f;
                   write_fails := write_fails f |}
                projectPath execConfig apiToken files) as [Hres' Hfinal'].
    fold mcpJsonPath in Hres', Hfinal'. fold wizard in Hres', Hfinal'.
    cbn [copy_fails write_fails] in Hres', Hfinal'.
    by rewrite Hres, Hres', Hfinal, Hfinal'.
  - intros Hcopy Hwrite. rewrite Hwrite in Hres, Hfinal. rewrite Hcopy in Hfinal.
    split; [exact Hres|]. rewrite Hfinal.
    by destruct (files !! mcpJsonPath ≫= JSON_parse);
      cbn [negb andb from_option id]; rewrite ?andb_false_r.
  - intros Hwrite. rewrite Hwrite in Hres, Hfinal.
    split; [exact Hres|]. rewrite Hfinal.
    destruct (match files !! mcpJsonPath ≫= JSON_parse with
              | Some e => has_servers e && negb (copy_fails f)
              | None => false
              end); [|reflexivity].
    apply lookup_insert_ne, backupPath_differs.
Qed.

(** X13. A configuration the wizard has written always lists a server, so
    a later run backs it up; and a later run, with whatever launch command
    and token, produces the configuration that one run with that command
    and token would have produced from the original file: only the
    [kanban-flow] entry is replaced, and running twice with the same command
    and token changes nothing more. *)
Theorem wizard_merge_is_stable
    (existing : JsValue) (execConfig execConfig' : JsObject)
    (apiToken apiToken' : string) :
  has_servers (JObj (finalConfig_of existing execConfig apiToken)) = true
  ∧ finalConfig_of (JObj (finalConfig_of existing execConfig apiToken))
      execConfig' apiToken'
    = finalConfig_of existing execConfig' apiToken'
  ∧ finalConfig_of (JObj (finalConfig_of existing execConfig apiToken))
      execConfig apiToken
    = finalConfig_of existing execConfig apiToken.
Proof.
  assert (∀ exec tok exec' tok',
            finalConfig_of (JObj (finalConfig_of existing exec tok)) exec' tok'
            = finalConfig_of existing exec' tok') as Hagain.
  { intros exec tok exec' tok'. unfold finalConfig_of at 1.
    assert (member (JObj (finalConfig_of existing exec tok)) "mcpServers"
            = JObj (mcpConfig_mcpServers exec tok
                    ∪ spread (member existing "mcpServers"))) as ->.
    { cbn [member]. unfold prop, finalConfig_of. by rewrite lookup_insert_eq. }
    cbn [spread]. unfold finalConfig_of. rewrite insert_insert_eq. f_equal. f_equal.
    apply map_eq. intros k. unfold mcpConfig_mcpServers.
    destruct (decide (k = "kanban-flow")) as [-> | Hne].
    - by rewrite !(lookup_union_Some_l _ _ _ _ (lookup_singleton_eq _ _)).
    - rewrite !lookup_union_r by (by rewrite lookup_singleton_ne). reflexivity. }
  split; [|split; apply Hagain].
  unfold has_servers. cbn [truthy js_truthy member].
  unfold prop, finalConfig_of. rewrite lookup_insert_eq.
  cbn [from_option id spread andb truthy js_truthy].
  apply Nat.ltb_lt.
  destruct (size (mcpConfig_mcpServers execConfig apiToken
                  ∪ spread (member existing "mcpServers"))) eqn:Hsize; [|lia].
  apply map_size_empty_iff in Hsize.
  apply (f_equal (fun m : JsObject => m !! "kanban-flow")) in Hsize.
  unfold mcpConfig_mcpServers in Hsize.
  rewrite (lookup_union_Some_l _ _ _ _ (lookup_singleton_eq _ _)), lookup_empty in Hsize.
  discriminate.
Qed.

End WizardOnDisk.

(** ** The calls of the tools that do not read the task back *)

(** X14. Each of get-board, create-task, get-tasks, get-task-details and
    get-all-tasks makes exactly one call to the service, whatever the
    service answers, and when the call is rejected the text is the tool's
    failure text with the error's message. create-task passes on the name,
    the column and the description only. *)
Theorem reading_tools_make_one_call (r : Registration) (w : JsObject → sigT SvcCall) :
  (r, w) ∈ single_call_tools →
  ∀ (S : Type) (h : Answers SvcCall S) (s : S) (args : JsObject),
    let o := run h (reg_handler r args) s in
    match w args with
    | existT X c =>
        calls o = [existT X c] ∧ final o = (h X c s).2
        ∧ ∀ e, (h X c s).1 = inl e →
               result o = inr (text_result (cat [reg_failure r; message e]))
    end.
Proof.
  intros Hin S h s args o. subst o. unfold single_call_tools in Hin.
  repeat (apply elem_of_cons in Hin as [[= -> ->] | Hin]);
    try (by apply elem_of_nil in Hin);
    rewrite run_reg_handler;
    cbn [reg_try reg_failure result final calls get_board create_task get_tasks
         get_task_details get_all_tasks];
    unfold get_board_try, create_task_try, get_tasks_try, get_task_details_try,
      get_all_tasks_try;
    rewrite run_bind, run_await;
    match goal with
    | |- context [h ?X ?c s] => destruct (h X c s) as [[e | x] s1]
    end;
    cbn [result final calls fst snd app];
    (split; [reflexivity | split; [reflexivity | intros e' [=]; by subst]]).
Qed.

(** get-tasks against a service that rejects. *)
Lemma reading_tools_make_one_call_get_tasks :
  calls (run (rejecting (Error "503"))
           (reg_handler get_tasks {[ "columnId" := JStr "c1" ]}) tt)
  = [existT _ (getTasksByColumnId (JStr "c1"))].
Proof.
  assert ((get_tasks, fun args => existT _ (getTasksByColumnId (prop args "columnId")))
          ∈ single_call_tools) as Hin by in_list.
  destruct (reading_tools_make_one_call _ _ Hin unit (rejecting (Error "503")) tt
              {[ "columnId" := JStr "c1" ]}) as (Hcalls & _).
  rewrite Hcalls. vm_compute. reflexivity.
Defined.

(** X15. create-task-with-subtasks creates first. If the creation is
    rejected, that is the only call. If it is accepted, the tool reads back
    the task whose id the service returned, once, and makes no other call; if
    that read is rejected the text is the failure text, although the task
    and its subtasks have been created. *)
Theorem create_with_subtasks_reads_the_created_task
    (S : Type) (h : Answers SvcCall S) (s : S) (args : JsObject) :
  let o := run h (reg_handler create_task_with_subtasks args) s in
  let create := createTaskWithSubtasks (create_task_with_subtasks_request args) in
  match h _ create s with
  | (inl e, s1) =>
      calls o = [existT _ create] ∧ final o = s1
      ∧ result o = inr (text_result
                          (cat ["Failed to create task with subtasks: "; message e]))
  | (inr created, s1) =>
      let read := getTaskDetails (JStr (cws_taskId created)) JUndefined in
      calls o = [existT _ create; existT _ read]
      ∧ final o = (h _ read s1).2
      ∧ ∀ e, (h _ read s1).1 = inl e →
             result o = inr (text_result
                               (cat ["Failed to create task with subtasks: "; message e]))
  end.
Proof.
  intros o create. subst o create.
  rewrite run_reg_handler.
  cbn [reg_try reg_failure create_task_with_subtasks].
  unfold create_task_with_subtasks_try.
  rewrite run_bind, run_await.
  destruct (h _ (createTaskWithSubtasks (create_task_with_subtasks_request args)) s)
    as [[e | created] s1]; cbn [result final calls fst snd]; [done|].
  rewrite run_bind, run_await.
  destruct (h _ (getTaskDetails (JStr (cws_taskId created)) JUndefined) s1)
    as [[e | task] s2]; cbn [result final calls fst snd app].
  - split; [reflexivity | split; [reflexivity | by intros e' [= <-]]].
  - split; [reflexivity | split; [reflexivity | intros e' [=]]].
Qed.

(** ** The command line *)

Lemma args_includes_elem (args : list string) (flag : string) :
  args_includes args flag = true ↔ flag ∈ args.
Proof.
  unfold args_includes. rewrite existsb_exists. split.
  - intros (x & Hin & Heq). apply String.eqb_eq in Heq as ->.
    by apply list_elem_of_In.
  - intros Hin. exists flag. split; [by apply list_elem_of_In | apply String.eqb_refl].
Qed.

Lemma args_includes_not_elem (args : list string) (flag : string) :
  flag ∉ args → args_includes args flag = false.
Proof.
  intros Hnot. destruct (args_includes args flag) eqn:Hin; [|reflexivity].
  by apply args_includes_elem in Hin.
Qed.

Lemma args_include_setup (args : list string) :
  "--setup" ∈ args ∨ "--init" ∈ args →
  args_includes args "--setup" || args_includes args "--init" = true.
Proof.
  intros [Hin | Hin]; apply args_includes_elem in Hin; rewrite Hin;
    [reflexivity | apply orb_true_r].
Qed.

(** The wizard awaited from the command line does to the disk what it does
    by itself, and makes the same calls. *)
Lemma run_lift_fs {A} (f : Faults) (prompted : KanbanError + option string)
    (connect_fails : bool) (p : Prog FsCall A) (files : gmap string string) :
  run (cli_answers f prompted connect_fails) (lift_fs p) files
  = {| result := result (run (faulty_fs f) p files);
       final := final (run (faulty_fs f) p files);
       calls := map lifted (calls (run (faulty_fs f) p files)) |}.
Proof.
  revert files. induction p as [a | e | X c k IH]; intros files; [reflexivity..|].
  cbn [lift_fs run]. change (cli_answers f prompted connect_fails X (cli_fs c) files)
    with (faulty_fs f X c files).
  destruct (faulty_fs f X c files) as [r files']. rewrite IH. reflexivity.
Qed.

Lemma run_bind_raw {E : Type → Type} {S A B : Type} (h : Answers E S)
    (p : Prog E A) (f : A → Prog E B) (s : S) :
  run h (bind p f) s =
  match result (run h p s) with
  | inl e => {| result := inl e; final := final (run h p s);
                calls := calls (run h p s) |}
  | inr a =>
      let o := run h (f a) (final (run h p s)) in
      {| result := result o; final := final o;
         calls := calls (run h p s) ++ calls o |}
  end.
Proof. exact (run_bind h p f s). Qed.

Section CommandLineFacts.

Variable JSON_parse : string → option JsValue.
Variable JSON_stringify : JsValue → string.
Variable path_join : string → string → string.
Variable path_basename : string → string.
Variable path_dirname : string → string.
Variable Date_now : Z.
Variable __filename : string.
Variable process_cwd : string.

Abbreviation the_entry :=
  (entry JSON_parse JSON_stringify path_join path_basename path_dirname Date_now
     __filename process_cwd).

Ltac evaluate_cli :=
  cbn [run mbind prog_bind bind try_catch mret prog_ret cli_answers faulty_fs await
       tell log process_exit unless_exited showHelp startMcpServer
       result final calls fst snd app negb].

Lemma getExecutablePath_is_node (installMethod : string) :
  getExecutablePath __filename installMethod = node_launcher __filename.
Proof.
  unfold getExecutablePath, node_launcher, object_literal, set_prop. cbn [foldl fst snd].
  apply map_eq. intros k.
  destruct (decide (k = "args")) as [-> | Hargs].
  - rewrite lookup_insert_eq, lookup_insert_ne by done. by rewrite lookup_singleton_eq.
  - rewrite lookup_insert_ne by done.
    destruct (decide (k = "command")) as [-> | Hcommand].
    + by rewrite !lookup_insert_eq.
    + rewrite !lookup_insert_ne by done. by rewrite lookup_singleton_ne.
Qed.

(** A run of the module with a setup flag, in terms of the run of
    [createCursorMcpConfig] on the same disk. *)
Lemma setup_outcome (f : Faults) (prompted : KanbanError + option string)
    (connect_fails : bool) (args : list string) (files : gmap string string) :
  "--setup" ∈ args ∨ "--init" ∈ args →
  let o := run (cli_answers f prompted connect_fails) (the_entry args) files in
  match prompted with
  | inl e =>
      result o = inr (Some 1) ∧ final o = files
      ∧ Forall (fun c => is_disk c = false) (calls o)
  | inr response_apiToken =>
      if truthy response_apiToken
      then
        let w := run (faulty_fs f)
                   (createCursorMcpConfig JSON_parse JSON_stringify path_join
                      path_basename Date_now process_cwd (node_launcher __filename)
                      (default "" response_apiToken)) files in
        final o = final w
        ∧ match result w with
          | inr _ => result o = inr (Some 0)
          | inl e =>
              result o = inr (Some 1)
              ∧ ∃ msg, last (calls o) = Some (existT _ (console_error msg (Some e)))
          end
      else
        result o = inr (Some 0) ∧ final o = files
        ∧ Forall (fun c => is_disk c = false) (calls o)
  end.
Proof.
  intros Hsetup o. subst o. unfold entry, main.
  rewrite (args_include_setup args Hsetup). unfold runSetupWizard.
  rewrite getExecutablePath_is_node.
  evaluate_cli.
  destruct prompted as [e | [apiToken|]]; evaluate_cli.
  - split; [reflexivity | split; [reflexivity | by repeat constructor]].
  - change (truthy (Some apiToken)) with (truthy apiToken).
    destruct (truthy apiToken) eqn:Htoken; cbn [negb from_option id]; evaluate_cli.
    + rewrite run_try_catch, run_bind_raw, run_try_catch, run_bind, run_lift_fs.
      cbn [result final calls].
      destruct (result (run (faulty_fs f) _ files)) as [e | configPath];
        evaluate_cli.
      * split; [reflexivity|]. split; [reflexivity|].
        eexists. rewrite !app_nil_r, !app_comm_cons. by rewrite last_snoc.
      * split; reflexivity.
    + split; [reflexivity | split; [reflexivity | by repeat constructor]].
  - split; [reflexivity | split; [reflexivity | by repeat constructor]].
Qed.

(** X16. A run with [--setup] or [--init] among the arguments, whatever
    else is among them, in which no token is given (the prompt is cancelled
    or yields the empty string) exits with code 0, leaves the disk as it
    was and makes no call to the disk. When the prompt itself fails, the
    run exits with code 1, again without touching the disk. *)
Theorem setup_without_a_token_leaves_the_disk_alone
    (f : Faults) (connect_fails : bool) (args : list string)
    (files : gmap string string) :
  "--setup" ∈ args ∨ "--init" ∈ args →
  (∀ response_apiToken : option string,
     truthy response_apiToken = false →
     let o := run (cli_answers f (inr response_apiToken) connect_fails)
                (the_entry args) files in
     result o = inr (Some 0) ∧ final o = files
     ∧ Forall (fun c => is_disk c = false) (calls o))
  ∧ (∀ e : KanbanError,
       let o := run (cli_answers f (inl e) connect_fails) (the_entry args) files in
       result o = inr (Some 1) ∧ final o = files
       ∧ Forall (fun c => is_disk c = false) (calls o)).
Proof.
  intros Hsetup. split.
  - intros response_apiToken Hfalsy.
    pose proof (setup_outcome f (inr response_apiToken) connect_fails args files Hsetup)
      as Hout.
    cbv beta iota zeta in Hout. by rewrite Hfalsy in Hout.
  - intros e.
    exact (setup_outcome f (inl e) connect_fails args files Hsetup).
Qed.

(** X17. A run with [--setup] or [--init] in which a token is given does
    to the disk what [createCursorMcpConfig] does in the working directory
    with the launch command [node] on the path of the running module,
    whether the module is installed under [node_modules] or not. When the
    write is not denied the run exits with code 0 and the configuration
    file holds the merge of the old configuration with that launch command
    and the token. When the write is denied the run reports the error and
    exits with code 1, and the configuration file is as it was. *)
Theorem setup_writes_the_node_launcher
    (f : Faults) (connect_fails : bool) (args : list string)
    (files : gmap string string) (apiToken : string) :
  "--setup" ∈ args ∨ "--init" ∈ args → apiToken ≠ "" →
  let mcpJsonPath := mcpJsonPath_of path_join process_cwd in
  let o := run (cli_answers f (inr (Some apiToken)) connect_fails)
             (the_entry args) files in
  final o
  = final (run (faulty_fs f)
             (createCursorMcpConfig JSON_parse JSON_stringify path_join
                path_basename Date_now process_cwd (node_launcher __filename)
                apiToken) files)
  ∧ (write_fails f = false →
     result o = inr (Some 0)
     ∧ final o !! mcpJsonPath
       = Some (JSON_stringify
                 (JObj (finalConfig_of
                          (default (JObj ∅) (files !! mcpJsonPath ≫= JSON_parse))
                          (node_launcher __filename) apiToken))))
  ∧ (write_fails f = true →
     result o = inr (Some 1)
     ∧ final o !! mcpJsonPath = files !! mcpJsonPath
     ∧ ∃ msg, last (calls o) = Some (existT _ (console_error msg (Some denied)))).
Proof.
  intros Hsetup Htoken mcpJsonPath o.
  pose proof (setup_outcome f (inr (Some apiToken)) connect_fails args files Hsetup)
    as Hout.
  cbv beta iota zeta in Hout. fold o in Hout.
  change (truthy (Some apiToken)) with (nonempty apiToken) in Hout.
  destruct apiToken as [|a apiToken]; [done|].
  cbn [nonempty from_option id] in Hout. destruct Hout as [Hfinal Hresult].
  destruct (wizard_outcome JSON_parse JSON_stringify path_join path_basename Date_now
              f process_cwd (node_launcher __filename) (String a apiToken) files)
    as [Hres Hdisk].
  fold mcpJsonPath in Hres, Hdisk.
  split; [exact Hfinal|]. rewrite Hres in Hresult. rewrite Hfinal, Hdisk. split.
  - intros Hwrite. rewrite Hwrite in Hresult |- *. split; [exact Hresult|].
    apply lookup_insert_eq.
  - intros Hwrite. rewrite Hwrite in Hresult |- *.
    destruct Hresult as [Hcode Hlast]. split; [exact Hcode|]. split; [|exact Hlast].
    destruct (match files !! mcpJsonPath ≫= JSON_parse with
              | Some e => has_servers e && negb (copy_fails f)
              | None => false
              end); [|reflexivity].
    apply lookup_insert_ne, backupPath_differs.
Qed.

(** X18. A run with [--help] or [-h] and no setup flag prints the help
    text and exits with code 0; it makes no other call: no prompt, no disk
    operation, no connection. *)
Theorem help_only_prints (args : list string) :
  "--setup" ∉ args → "--init" ∉ args → "--help" ∈ args ∨ "-h" ∈ args →
  ∀ (S : Type) (h : Answers CliCall S) (s : S),
    run h (the_entry args) s
    = {| result := inr (Some 0);
         final := (h _ (cli_fs (console_log help_text)) s).2;
         calls := [existT _ (cli_fs (console_log help_text))] |}.
Proof.
  intros Hsetup Hinit Hhelp S h s. unfold entry, main.
  rewrite (args_includes_not_elem _ _ Hsetup), (args_includes_not_elem _ _ Hinit).
  cbn [orb].
  assert (args_includes args "--help" || args_includes args "-h" = true) as ->.
  { destruct Hhelp as [Hin | Hin]; apply args_includes_elem in Hin; rewrite Hin;
      [reflexivity | apply orb_true_r]. }
  evaluate_cli. by destruct (h _ (cli_fs (console_log help_text)) s).
Qed.

(** X19. A run with none of the four flags, whatever other arguments it
    is given, starts the server: it announces the start, connects, and
    announces that the server is ready only once the connection is made;
    the run then does not exit. When the connection is refused the run
    reports the error as fatal and exits with code 1. It never prompts and
    never touches the disk. *)
Theorem plain_run_starts_the_server (args : list string) :
  "--setup" ∉ args → "--init" ∉ args → "--help" ∉ args → "-h" ∉ args →
  ∀ (S : Type) (h : Answers CliCall S) (s : S),
    let starting :=
      console_error
        "[MCP Server] Starting Kanban Flow MCP server with stdio transport..." None in
    let connecting :=
      console_error "[MCP Server] Connecting server to stdio transport..." None in
    let ready :=
      console_error
        "[MCP Server] Kanban Flow MCP Server ready for stdio communication" None in
    let o := run h (the_entry args) s in
    match h _ server_connect (h _ connecting (h _ starting s).2).2 with
    | (inr _, _) =>
        result o = inr None
        ∧ calls o = [existT _ starting; existT _ connecting; existT _ server_connect;
                     existT _ ready]
    | (inl e, _) =>
        result o = inr (Some 1)
        ∧ calls o = [existT _ starting; existT _ connecting; existT _ server_connect;
                     existT _ (console_error "[MCP Server] Fatal error in main():"
                                 (Some e))]
    end.
Proof.
  intros Hsetup Hinit Hhelp Hh S h s starting connecting ready o.
  subst o. unfold entry, main.
  rewrite (args_includes_not_elem _ _ Hsetup), (args_includes_not_elem _ _ Hinit),
    (args_includes_not_elem _ _ Hhelp), (args_includes_not_elem _ _ Hh).
  cbn [orb]. evaluate_cli. fold starting connecting.
  destruct (h _ starting s) as [r1 s1]. cbn [snd].
  destruct (h _ connecting s1) as [r2 s2]. cbn [snd].
  destruct (h _ server_connect s2) as [[e | []] s3]; evaluate_cli.
  - by destruct (h _ (console_error "[MCP Server] Fatal error in main():" (Some e)) s3).
  - fold ready. by destruct (h _ ready s3).
Qed.

End CommandLineFacts.

(** Setup cancelled at the prompt, with a help flag among the arguments. *)
Lemma setup_cancelled_sample :
  let files : gmap string string := {[ "/proj/notes.txt" := "keep" ]} in
  let o := run (cli_answers {| mkdir_fails := false; copy_fails := false;
                               write_fails := false |} (inr None) false)
             (sample_entry ["--help"; "--init"]) files in
  result o = inr (Some 0) ∧ final o = files.
Proof.
  intros files o.
  destruct (setup_without_a_token_leaves_the_disk_alone
              sample_parse sample_stringify sample_join sample_basename sample_dirname
              1700000000000 "/opt/kanban/index.js" "/proj"
              {| mkdir_fails := false; copy_fails := false; write_fails := false |}
              false ["--help"; "--init"] files) as [Hcancel _].
  - right. in_list.
  - destruct (Hcancel None eq_refl) as (Hres & Hfinal & _). split; assumption.
Defined.

(** Setup with the token [secret] in an empty project. *)
Lemma setup_writes_sample :
  let o := run (cli_answers {| mkdir_fails := false; copy_fails := false;
                               write_fails := false |} (inr (Some "secret")) false)
             (sample_entry ["--setup"]) ∅ in
  result o = inr (Some 0)
  ∧ final o !! "/proj/.cursor/mcp.json"
    = Some (sample_stringify
              (JObj (fresh_config (node_launcher "/opt/kanban/index.js") "secret"))).
Proof.
  intros o.
  destruct (setup_writes_the_node_launcher
              sample_parse sample_stringify sample_join sample_basename sample_dirname
              1700000000000 "/opt/kanban/index.js" "/proj"
              {| mkdir_fails := false; copy_fails := false; write_fails := false |}
              false ["--setup"] ∅ "secret") as (_ & Hok & _).
  - left. in_list.
  - discriminate.
  - destruct (Hok eq_refl) as [Hres Hfile]. split; [exact Hres|]. exact Hfile.
Defined.

(** [-h] with another argument. *)
Lemma help_only_prints_sample :
  result (run (cli_answers {| mkdir_fails := false; copy_fails := false;
                              write_fails := false |} (inr None) false)
            (sample_entry ["-h"; "--verbose"]) ∅)
  = inr (Some 0).
Proof.
  rewrite (help_only_prints
             sample_parse sample_stringify sample_join sample_basename sample_dirname
             1700000000000 "/opt/kanban/index.js" "/proj" ["-h"; "--verbose"]).
  - reflexivity.
  - intros Hin. not_in_list Hin.
  - intros Hin. not_in_list Hin.
  - right. in_list.
Defined.

(** No argument, and a transport that refuses the connection. *)
Lemma plain_run_sample :
  result (run (cli_answers {| mkdir_fails := false; copy_fails := false;
                              write_fails := false |} (inr None) true)
            (sample_entry []) ∅)
  = inr (Some 1).
Proof.
  assert (∀ flag : string, flag ∉ ([] : list string)) as Hnone
    by (intros flag Hin; by apply elem_of_nil in Hin).
  exact (proj1 (plain_run_starts_the_server
                  sample_parse sample_stringify sample_join sample_basename
                  sample_dirname 1700000000000 "/opt/kanban/index.js" "/proj" []
                  (Hnone _) (Hnone _) (Hnone _) (Hnone _) _
                  (cli_answers {| mkdir_fails := false; copy_fails := false;
                                  write_fails := false |} (inr None) true) ∅)).
Defined.

(** The wizard in an empty project, where the directory cannot be made. *)
Lemma wizard_writes_a_fresh_configuration_sample :
  let o := run (faulty_fs {| mkdir_fails := true; copy_fails := false;
                             write_fails := false |}) sample_wizard ∅ in
  result o = inr "/proj/.cursor/mcp.json"
  ∧ final o = {[ "/proj/.cursor/mcp.json" :=
                   sample_stringify (JObj (fresh_config sample_execConfig "secret")) ]}.
Proof.
  intros o.
  destruct (wizard_writes_a_fresh_configuration
              sample_parse sample_stringify sample_join sample_basename 1700000000000
              {| mkdir_fails := true; copy_fails := false; write_fails := false |}
              "/proj" sample_execConfig "secret" ∅) as [Hres Hfinal].
  - reflexivity.
  - exact I.
  - split; [exact Hres | exact Hfinal].
Defined.

(** ** The values of update-custom-field *)


